(** * NHL Companion API: the authenticated, timezone-aware read layer

    A shallow embedding of [api/auth.py], [api/router.py], [api/models.py],
    [api_app.py] and the repositories under [nhl_db/repositories], with the
    properties of the HTTP layer stated over it.

    Conventions.
    - Python integers are [Z]; a [str] is the [string] of its UTF-8 bytes;
      [Optional[T]] is [option T]; a naive UTC [datetime] is the number of
      seconds since 1970-01-01T00:00:00.
    - Handlers run in a small state-and-exception monad over a [World]
      holding the process environment, the database tables, the wall clock
      and the trace of repository calls.
    - Logging has no effect on a response and is left out. *)

From Stdlib Require Import ZArith List String Ascii Bool Lia.
From Stdlib Require Import Permutation Sorted DecimalString.
Import ListNotations.

Set Warnings "-register-all".

Open Scope string_scope.
Open Scope list_scope.
Open Scope Z_scope.

Notation "s1 +++ s2" := (String.append s1 s2)
  (at level 60, right associativity).

(** ** Text helpers *)

Module Text.

(** [str(n)] for a Python int. *)
Definition of_Z (n : Z) : string := NilZero.string_of_int (Z.to_int n).

Fixpoint repeat_char (c : ascii) (n : nat) : string :=
  match n with
  | O => EmptyString
  | S k => String c (repeat_char c k)
  end.

(** [f"{n:0{w}d}"] for a non-negative [n]. *)
Definition zero_pad (w : nat) (n : Z) : string :=
  let s := of_Z n in
  repeat_char "0"%char (w - String.length s) +++ s.

Definition hex_digit (n : Z) : ascii :=
  ascii_of_nat (Z.to_nat (if n <? 10 then 48 + n else 87 + n)).

Definition byte (c : ascii) : Z := Z.of_nat (nat_of_ascii c).

(** A [str] is held as its UTF-8 bytes.  [code_points] reads the characters
    back: one to four bytes each. *)
Definition continuation (c : ascii) : option Z :=
  let b := byte c in
  if (128 <=? b) && (b <? 192) then Some (b - 128) else None.

Fixpoint code_points (s : string) : option (list Z) :=
  match s with
  | EmptyString => Some []
  | String c0 r0 =>
      let b0 := byte c0 in
      if b0 <? 128 then option_map (cons b0) (code_points r0)
      else if b0 <? 192 then None
      else if b0 <? 224 then
        match r0 with
        | String c1 r1 =>
            match continuation c1 with
            | Some x1 => option_map (cons ((b0 - 192) * 64 + x1)) (code_points r1)
            | None => None
            end
        | EmptyString => None
        end
      else if b0 <? 240 then
        match r0 with
        | String c1 (String c2 r2) =>
            match continuation c1, continuation c2 with
            | Some x1, Some x2 =>
                option_map (cons (((b0 - 224) * 64 + x1) * 64 + x2)) (code_points r2)
            | _, _ => None
            end
        | _ => None
        end
      else if b0 <? 248 then
        match r0 with
        | String c1 (String c2 (String c3 r3)) =>
            match continuation c1, continuation c2, continuation c3 with
            | Some x1, Some x2, Some x3 =>
                option_map (cons ((((b0 - 240) * 64 + x1) * 64 + x2) * 64 + x3))
                  (code_points r3)
            | _, _, _ => None
            end
        | _ => None
        end
      else None
  end.

(** The decimal digits of Unicode (general category Nd, version 14.0), as
    ranges of code points; within a range the digits 0 to 9 repeat in
    order.  This is the class [\d] of a regular expression on [str]. *)
Definition decimal_digit_ranges : list (Z * Z) :=
  [(48, 57); (1632, 1641); (1776, 1785); (1984, 1993); (2406, 2415); (2534, 2543);
   (2662, 2671); (2790, 2799); (2918, 2927); (3046, 3055); (3174, 3183); (3302, 3311);
   (3430, 3439); (3558, 3567); (3664, 3673); (3792, 3801); (3872, 3881); (4160, 4169);
   (4240, 4249); (6112, 6121); (6160, 6169); (6470, 6479); (6608, 6617); (6784, 6793);
   (6800, 6809); (6992, 7001); (7088, 7097); (7232, 7241); (7248, 7257);
   (42528, 42537); (43216, 43225); (43264, 43273); (43472, 43481); (43504, 43513);
   (43600, 43609); (44016, 44025); (65296, 65305); (66720, 66729); (68912, 68921);
   (69734, 69743); (69872, 69881); (69942, 69951); (70096, 70105); (70384, 70393);
   (70736, 70745); (70864, 70873); (71248, 71257); (71360, 71369); (71472, 71481);
   (71904, 71913); (72016, 72025); (72784, 72793); (73040, 73049); (73120, 73129);
   (92768, 92777); (92864, 92873); (93008, 93017); (120782, 120831);
   (123200, 123209); (123632, 123641); (125264, 125273); (130032, 130041)].

Fixpoint decimal_in (ranges : list (Z * Z)) (cp : Z) : option Z :=
  match ranges with
  | [] => None
  | (lo, hi) :: rest =>
      if (lo <=? cp) && (cp <=? hi) then Some ((cp - lo) mod 10)
      else decimal_in rest cp
  end.

(** The value of a character that is a decimal digit. *)
Definition decimal_value (cp : Z) : option Z := decimal_in decimal_digit_ranges cp.

Definition is_decimal_digit (cp : Z) : bool :=
  match decimal_value cp with
  | Some _ => true
  | None => false
  end.

(** [int(s)] for a run of decimal digits. *)
Fixpoint number (acc : Z) (cps : list Z) : option Z :=
  match cps with
  | [] => Some acc
  | cp :: rest =>
      match decimal_value cp with
      | Some v => number (10 * acc + v) rest
      | None => None
      end
  end.

End Text.

(** ** The proleptic Gregorian calendar

    [datetime] arithmetic: day numbers count from 1970-01-01. *)

Module Calendar.

Definition is_leap (y : Z) : bool :=
  ((y mod 4 =? 0) && negb (y mod 100 =? 0)) || (y mod 400 =? 0).

Definition days_in_month (y m : Z) : Z :=
  if m =? 2 then (if is_leap y then 29 else 28)
  else if (m =? 4) || (m =? 6) || (m =? 9) || (m =? 11) then 30
  else 31.

Definition valid_date (y m d : Z) : bool :=
  (1 <=? y) && (y <=? 9999) && (1 <=? m) && (m <=? 12) &&
  (1 <=? d) && (d <=? days_in_month y m).

Definition days_from_civil (y m d : Z) : Z :=
  let y' := if m <=? 2 then y - 1 else y in
  let era := y' / 400 in
  let yoe := y' - era * 400 in
  let mp := if 2 <? m then m - 3 else m + 9 in
  let doy := (153 * mp + 2) / 5 + d - 1 in
  let doe := yoe * 365 + yoe / 4 - yoe / 100 + doy in
  era * 146097 + doe - 719468.

Definition civil_from_days (z : Z) : Z * Z * Z :=
  let z' := z + 719468 in
  let era := z' / 146097 in
  let doe := z' - era * 146097 in
  let yoe := (doe - doe / 1460 + doe / 36524 - doe / 146096) / 365 in
  let doy := doe - (365 * yoe + yoe / 4 - yoe / 100) in
  let mp := (5 * doy + 2) / 153 in
  let d := doy - (153 * mp + 2) / 5 + 1 in
  let m := if mp <? 10 then mp + 3 else mp - 9 in
  let y := yoe + era * 400 in
  (if m <=? 2 then y + 1 else y, m, d).

(** The date after a given one. *)
Definition next_day (ymd : Z * Z * Z) : Z * Z * Z :=
  let '(y, m, d) := ymd in
  if d <? days_in_month y m then (y, m, d + 1)
  else if m <? 12 then (y, m + 1, 1)
  else (y + 1, 1, 1).

Definition seconds_per_day : Z := 86400.

(** Midnight of a civil date, as seconds on that date's own wall clock. *)
Definition midnight (y m d : Z) : Z := days_from_civil y m d * seconds_per_day.

(** The calendar date a wall-clock reading falls on. *)
Definition date_of_seconds (t : Z) : Z * Z * Z :=
  civil_from_days (t / seconds_per_day).

(** [strftime("%Y-%m-%d")], for years from 1000 on. *)
Definition format_date (ymd : Z * Z * Z) : string :=
  let '(y, m, d) := ymd in
  Text.zero_pad 4 y +++ "-" +++ Text.zero_pad 2 m +++ "-" +++ Text.zero_pad 2 d.

(** [datetime.isoformat()] of a naive datetime with zero microseconds. *)
Definition isoformat (t : Z) : string :=
  let s := t mod seconds_per_day in
  format_date (date_of_seconds t) +++ "T" +++
  Text.zero_pad 2 (s / 3600) +++ ":" +++
  Text.zero_pad 2 ((s mod 3600) / 60) +++ ":" +++
  Text.zero_pad 2 (s mod 60).

End Calendar.

(** ** Time zones

    A zone as [pytz] holds it: a fixed offset ([StaticTzInfo], such as UTC),
    or a table of UTC transition instants, each with the offset in force
    from that instant on ([DstTzInfo]); offsets are seconds east of UTC. *)

Inductive tzinfo : Type :=
| StaticTz (utcoffset : Z)
| DstTz (first : Z * Z) (later : list (Z * Z)).

Module Tz.

(** The entry [bisect_right(times, t) - 1] picks, clamped to the first. *)
Fixpoint offset_in (cur : Z) (table : list (Z * Z)) (t : Z) : Z :=
  match table with
  | [] => cur
  | (at_, off) :: rest => if at_ <=? t then offset_in off rest t else cur
  end.

(** [tz.fromutc]: the offset in force at the UTC instant [t]. *)
Definition offset_at_utc (z : tzinfo) (t : Z) : Z :=
  match z with
  | StaticTz off => off
  | DstTz (_, off0) later => offset_in off0 later t
  end.

(** [datetime.now(tz)]: the wall clock of the zone at the UTC instant. *)
Definition to_local (z : tzinfo) (t : Z) : Z := t + offset_at_utc z t.

(** The transition instants of a table come in ascending order. *)
Fixpoint ascending_from (since : option Z) (table : list (Z * Z)) : bool :=
  match table with
  | [] => true
  | (at_, _) :: rest =>
      match since with
      | Some s => s <? at_
      | None => true
      end && ascending_from (Some at_) rest
  end.

Definition ascending (z : tzinfo) : bool :=
  match z with
  | StaticTz _ => true
  | DstTz _ later => ascending_from None later
  end.

End Tz.

(** ** JSON values and [json.dumps] with compact separators *)

Inductive json : Type :=
| JNull
| JBool (b : bool)
| JInt (n : Z)
| JStr (s : string)
| JArr (items : list json)
| JObj (members : list (string * json)).

Module Json.

Definition quote : ascii := ascii_of_nat 34.
Definition backslash : ascii := ascii_of_nat 92.

Definition escape_char (c : ascii) : string :=
  let n := Z.of_nat (nat_of_ascii c) in
  if n =? 34 then String backslash (String quote EmptyString)
  else if n =? 92 then String backslash (String backslash EmptyString)
  else if n =? 10 then String backslash "n"
  else if n =? 13 then String backslash "r"
  else if n =? 9 then String backslash "t"
  else if n =? 8 then String backslash "b"
  else if n =? 12 then String backslash "f"
  else if n <? 32 then
    String backslash ("u00" +++
      String (Text.hex_digit (n / 16)) (String (Text.hex_digit (n mod 16)) EmptyString))
  else String c EmptyString.

Fixpoint escape (s : string) : string :=
  match s with
  | EmptyString => EmptyString
  | String c r => escape_char c +++ escape r
  end.

Definition dumps_str (s : string) : string :=
  String quote (escape s +++ String quote EmptyString).

Fixpoint dumps (j : json) : string :=
  match j with
  | JNull => "null"
  | JBool true => "true"
  | JBool false => "false"
  | JInt n => Text.of_Z n
  | JStr s => dumps_str s
  | JArr items =>
      let fix go (l : list json) : string :=
        match l with
        | [] => EmptyString
        | [x] => dumps x
        | x :: r => dumps x +++ "," +++ go r
        end in
      "[" +++ go items +++ "]"
  | JObj members =>
      let fix go (l : list (string * json)) : string :=
        match l with
        | [] => EmptyString
        | [(k, v)] => dumps_str k +++ ":" +++ dumps v
        | (k, v) :: r => dumps_str k +++ ":" +++ dumps v +++ "," +++ go r
        end in
      "{" +++ go members +++ "}"
  end.

Definition opt {A : Type} (f : A -> json) (o : option A) : json :=
  match o with
  | Some a => f a
  | None => JNull
  end.

End Json.

(** ** Response models ([api/models.py])

    Fields in declaration order; a field declared [Field(...)] is required,
    one declared [Field(None, ...)] is optional. *)

Record TeamResponse : Type := mkTeam {
  teamId : Z;
  teamName : string;
  teamCity : option string;
  teamAbbrev : option string;
  teamIsActive : bool;
  teamLogoUrl : option string
}.

Record PlayerResponse : Type := mkPlayer {
  playerId : Z;
  playerTeamId : option Z;
  playerFirstName : string;
  playerLastName : string;
  playerNumber : option Z;
  playerPosition : option string;
  playerHeadshotUrl : option string;
  playerHomeCity : option string;
  playerHomeCountry : option string
}.

Record GameResponse : Type := mkGame {
  gameId : Z;
  gameSeason : Z;
  gameType : Z;
  gameDateTimeUtc : Z;
  gameVenue : option string;
  gameHomeTeamId : Z;
  gameAwayTeamId : Z;
  gameState : string;
  gamePeriod : option Z;
  gameClock : option string;
  gameHomeScore : Z;
  gameAwayScore : Z;
  gameHomeSOG : Z;
  gameAwaySOG : Z;
  homeTeamName : option string;
  homeTeamAbbrev : option string;
  awayTeamName : option string;
  awayTeamAbbrev : option string
}.

Record PlayResponse : Type := mkPlay {
  playId : Z;
  playGameId : Z;
  playIndex : Z;
  playTeamId : option Z;
  playPrimaryPlayerId : option Z;
  playLosingPlayerId : option Z;
  playSecondaryPlayerId : option Z;
  playTertiaryPlayerId : option Z;
  playPeriod : Z;
  playTime : string;
  playTimeReamaining : string;
  playType : string;
  playZone : option Z;
  playXCoord : option Z;
  playYCoord : option Z
}.

Record GameDetailResponse : Type := mkGameDetail {
  game : GameResponse;
  plays : list PlayResponse
}.

(** ** Rows of the store

    A cursor opened with [dictionary=True] yields one mapping per row, keyed
    by the selected columns.  The team and play queries select exactly the
    fields of their response model, so their rows are typed by it, and so are
    game rows.  The player queries select one more column, [playerIsActive].
    Columns are typed as the response models require them (a required field
    is never NULL), so that building a model from a row does not fail. *)

Definition TeamRow : Type := TeamResponse.
Definition PlayRow : Type := PlayResponse.
Definition GameRow : Type := GameResponse.

Record PlayerRow : Type := mkPlayerRow {
  row_playerId : Z;
  row_playerTeamId : option Z;
  row_playerFirstName : string;
  row_playerLastName : string;
  row_playerNumber : option Z;
  row_playerPosition : option string;
  row_playerHeadshotUrl : option string;
  row_playerHomeCity : option string;
  row_playerHomeCountry : option string;
  row_playerIsActive : bool
}.

(** [collation] is the order the store's [ORDER BY] uses on text columns. *)
Record Database : Type := mkDatabase {
  teams_table : list TeamRow;
  players_table : list PlayerRow;
  games_table : list GameRow;
  plays_table : list PlayRow;
  collation : string -> string -> bool
}.

(** ** Exceptions

    Of each violation a [RequestValidationError] lists, the kind, the
    location and the offending input are kept. *)

Record ErrorItem : Type := mkErrorItem {
  err_type : string;
  err_loc : list string;
  err_input : string
}.

Inductive Exn : Type :=
| HTTPException (status_code : Z) (detail : string) (headers : list (string * string))
| RequestValidationError (errors : list ErrorItem)
| RuntimeError (message : string)
| UnknownTimeZoneError (zone : string)
| ValueError (message : string)
| DatabaseError (message : string).

(** ** The world a request runs in *)

Inductive RepoCall : Type :=
| TeamsGetAll
| TeamsGetActive
| GamesGetByDate (date timezone : string)
| GamesGetById (game_id : Z)
| PlayersGetByTeam (team_id : Z)
| PlayersGetById (player_id : Z)
| PlaysGetByGame (game_id : Z).

(** - [environ]: the process environment;
    - [zoneinfo]: the zones [pytz] knows, by name;
    - [bearer_auto_error]: what [HTTPBearer()] raises for a request that
      presents no bearer credential (FastAPI's own code, fixed per release);
    - [db]: the tables;
    - [faults]: for each coming connection attempt, whether it fails
      (none left: the store is healthy);
    - [clock]: the current instant, seconds since the epoch, UTC;
    - [calls]: the repository functions invoked so far, latest last. *)
Record World : Type := mkWorld {
  environ : list (string * string);
  zoneinfo : list (string * tzinfo);
  bearer_auto_error : Exn;
  db : Database;
  faults : list bool;
  clock : Z;
  calls : list RepoCall
}.

Definition set_faults (w : World) (f : list bool) : World :=
  mkWorld (environ w) (zoneinfo w) (bearer_auto_error w) (db w) f (clock w) (calls w).

Definition set_calls (w : World) (c : list RepoCall) : World :=
  mkWorld (environ w) (zoneinfo w) (bearer_auto_error w) (db w) (faults w) (clock w) c.

Definition set_clock (w : World) (t : Z) : World :=
  mkWorld (environ w) (zoneinfo w) (bearer_auto_error w) (db w) (faults w) t (calls w).

(** ** Computations that read the world and may raise *)

Inductive Outcome (A : Type) : Type :=
| Returned (a : A)
| Raised (e : Exn).
Arguments Returned {A} a.
Arguments Raised {A} e.

Definition M (A : Type) : Type := World -> Outcome A * World.

Definition ret {A : Type} (a : A) : M A := fun w => (Returned a, w).

Definition raise {A : Type} (e : Exn) : M A := fun w => (Raised e, w).

Definition bind {A B : Type} (m : M A) (k : A -> M B) : M B :=
  fun w =>
    match m w with
    | (Returned a, w') => k a w'
    | (Raised e, w') => (Raised e, w')
    end.

(** [try: m  except ... as e: h e] *)
Definition try_except {A : Type} (m : M A) (h : Exn -> M A) : M A :=
  fun w =>
    match m w with
    | (Returned a, w') => (Returned a, w')
    | (Raised e, w') => h e w'
    end.

Definition get_world : M World := fun w => (Returned w, w).

Notation "x <- m ;; k" := (bind m (fun x => k))
  (at level 61, m at next level, right associativity).

Fixpoint assoc {A : Type} (k : string) (l : list (string * A)) : option A :=
  match l with
  | [] => None
  | (k', v) :: r => if String.eqb k k' then Some v else assoc k r
  end.

(** ** Queries

    [WHERE] keeps the rows that satisfy the condition.  [ORDER BY] sorts by
    the key order; rows with equal keys, whose order SQL leaves open, stay
    in table order. *)

Module Sql.

Fixpoint insert_by {A : Type} (le : A -> A -> bool) (x : A) (l : list A) : list A :=
  match l with
  | [] => [x]
  | y :: r => if le x y then x :: l else y :: insert_by le x r
  end.

Definition order_by {A : Type} (le : A -> A -> bool) (l : list A) : list A :=
  fold_right (insert_by le) [] l.

(** [ORDER BY k1, k2]: by [k1], and by [k2] among rows equal on [k1]. *)
Definition then_by {A : Type} (le1 le2 : A -> A -> bool) (a b : A) : bool :=
  if le1 a b then (if le1 b a then le2 a b else true) else false.

(** [cur.fetchone()] *)
Definition fetchone {A : Type} (rows : list A) : option A := hd_error rows.

(** [col = %s] on a nullable integer column: NULL matches nothing. *)
Definition eq_nullable (col : option Z) (v : Z) : bool :=
  match col with
  | Some c => c =? v
  | None => false
  end.

End Sql.

(** ** Access to the store

    Every repository function opens a connection, runs one query and closes
    the connection on every path; a failure to connect or to execute
    propagates as an exception.  [get_db_connection] belongs to [nhl_db/db.py]
    and is an external collaborator: whether an attempt fails is read from
    the world. *)

Definition invoked (c : RepoCall) : M unit :=
  fun w => (Returned tt, set_calls w (calls w ++ [c])).

Definition run_query {A : Type} (q : Database -> A) : M A :=
  fun w =>
    match faults w with
    | true :: rest => (Raised (DatabaseError "store unavailable"), set_faults w rest)
    | false :: rest => (Returned (q (db w)), set_faults w rest)
    | [] => (Returned (q (db w)), w)
    end.

(** *** [nhl_db/repositories/teams_repo.py] *)

Definition team_order (d : Database) (a b : TeamRow) : bool :=
  collation d (teamName a) (teamName b).

Module teams_repo.

Definition get_all_teams : M (list TeamRow) :=
  _ <- invoked TeamsGetAll ;;
  run_query (fun d => Sql.order_by (team_order d) (teams_table d)).

Definition get_active_teams : M (list TeamRow) :=
  _ <- invoked TeamsGetActive ;;
  run_query (fun d =>
    Sql.order_by (team_order d) (filter teamIsActive (teams_table d))).

End teams_repo.

(** *** [nhl_db/repositories/players_repo.py] *)

Definition player_order (d : Database) : PlayerRow -> PlayerRow -> bool :=
  Sql.then_by
    (fun a b => collation d (row_playerLastName a) (row_playerLastName b))
    (fun a b => collation d (row_playerFirstName a) (row_playerFirstName b)).

Module players_repo.

Definition select_by_team (team_id : Z) (d : Database) : list PlayerRow :=
  Sql.order_by (player_order d)
    (filter (fun r => Sql.eq_nullable (row_playerTeamId r) team_id) (players_table d)).

Definition select_by_id (player_id : Z) (d : Database) : option PlayerRow :=
  Sql.fetchone (filter (fun r => row_playerId r =? player_id) (players_table d)).

Definition get_players_by_team (team_id : Z) : M (list PlayerRow) :=
  _ <- invoked (PlayersGetByTeam team_id) ;;
  run_query (select_by_team team_id).

Definition get_player_by_id (player_id : Z) : M (option PlayerRow) :=
  _ <- invoked (PlayersGetById player_id) ;;
  run_query (select_by_id player_id).

End players_repo.

(** *** [nhl_db/repositories/plays_repo.py] *)

Definition play_order : PlayRow -> PlayRow -> bool :=
  Sql.then_by
    (fun a b => playPeriod a <=? playPeriod b)
    (fun a b => playIndex a <=? playIndex b).

Module plays_repo.

Definition select_by_game (game_id : Z) (d : Database) : list PlayRow :=
  Sql.order_by play_order
    (filter (fun r => playGameId r =? game_id) (plays_table d)).

Definition get_plays_by_game (game_id : Z) : M (list PlayRow) :=
  _ <- invoked (PlaysGetByGame game_id) ;;
  run_query (select_by_game game_id).

End plays_repo.

(** *** The shape [YYYY-MM-DD]

    The pattern [^\d{4}-\d{2}-\d{2}$] that [api/router.py] puts on the [date]
    query parameter, matched against the whole value, character by
    character; [\d] is any decimal digit of Unicode. *)
Inductive PatternAtom : Type :=
| Digit
| Literal (c : ascii).

Definition atom_matches (a : PatternAtom) (cp : Z) : bool :=
  match a with
  | Digit => Text.is_decimal_digit cp
  | Literal l => cp =? Text.byte l
  end.

Fixpoint matches_all (p : list PatternAtom) (cps : list Z) : bool :=
  match p, cps with
  | [], [] => true
  | a :: p', cp :: cps' => atom_matches a cp && matches_all p' cps'
  | _, _ => false
  end.

Definition fullmatch (p : list PatternAtom) (s : string) : bool :=
  match Text.code_points s with
  | Some cps => matches_all p cps
  | None => false
  end.

Definition date_pattern : list PatternAtom :=
  [Digit; Digit; Digit; Digit; Literal "-"; Digit; Digit; Literal "-"; Digit; Digit].

(** *** [nhl_db/repositories/games_repo.py] *)

Module games_repo.

(** Modelled from the spec: [games_repo.py] is not among the sources, only
    its two callers in [api/router.py] are.  An ISO date is read as year,
    month and day; the spec speaks of valid dates only, and a value that
    names no calendar date is taken to raise [ValueError]. *)
Definition parse_iso_date (s : string) : option (Z * Z * Z) :=
  match Text.code_points s with
  | Some [y1; y2; y3; y4; h1; m1; m2; h2; d1; d2] =>
      if (h1 =? 45) && (h2 =? 45) then
        match Text.number 0 [y1; y2; y3; y4], Text.number 0 [m1; m2],
              Text.number 0 [d1; d2] with
        | Some y, Some m, Some d =>
            if Calendar.valid_date y m d then Some (y, m, d) else None
        | _, _, _ => None
        end
      else None
  | _ => None
  end.

(** Modelled from the spec: the first UTC instant, in a table of
    transitions, at which a wall clock that shows [off] since [since] and
    the offsets of the table from their instants on has reached the reading
    [l] ("as interpreted in the given timezone"). *)
Fixpoint first_reaching (off : Z) (since : option Z) (table : list (Z * Z)) (l : Z) : Z :=
  let here := match since with
              | Some s => Z.max s (l - off)
              | None => l - off
              end in
  match table with
  | [] => here
  | (at_, off') :: rest =>
      if l - off <? at_ then here else first_reaching off' (Some at_) rest l
  end.

(** Modelled from the spec: a wall-clock reading of a zone, converted to
    its UTC instant: the first instant at which the zone's wall clock reads
    [l] or later. *)
Definition local_to_utc (z : tzinfo) (l : Z) : Z :=
  match z with
  | StaticTz off => l - off
  | DstTz (_, off0) later => first_reaching off0 None later l
  end.

(** Modelled from the spec: "the 24-hour civil-day window
    [isoDate 00:00:00, isoDate+1 00:00:00) as interpreted in the given
    timezone", converted "to its UTC bounds". *)
Definition utc_window (z : tzinfo) (ymd : Z * Z * Z) : Z * Z :=
  let '(y, m, d) := ymd in
  let start := Calendar.midnight y m d in
  (local_to_utc z start, local_to_utc z (start + Calendar.seconds_per_day)).

(** Modelled from the spec: the UTC start of a game "falls within" the
    half-open window. *)
Definition in_window (win : Z * Z) (g : GameRow) : bool :=
  (fst win <=? gameDateTimeUtc g) && (gameDateTimeUtc g <? snd win).

(** Modelled from the spec: "returns every game whose authoritative UTC
    start timestamp falls within" the window, "filtering on the UTC
    timestamp column"; rows come in table order. *)
Definition select_by_window (win : Z * Z) (d : Database) : list GameRow :=
  filter (in_window win) (games_table d).

(** Modelled from the spec: [listGamesByLocalDate(isoDate, timezone)]. *)
Definition get_games_by_date (date timezone : string) : M (list GameRow) :=
  _ <- invoked (GamesGetByDate date timezone) ;;
  w <- get_world ;;
  match assoc timezone (zoneinfo w), parse_iso_date date with
  | None, _ => raise (UnknownTimeZoneError timezone)
  | Some _, None => raise (ValueError "invalid date")
  | Some z, Some ymd => run_query (select_by_window (utc_window z ymd))
  end.

(** Modelled from the spec: [getGameById(gameId) -> Game?], "absence is
    not found". *)
Definition select_by_id (game_id : Z) (d : Database) : option GameRow :=
  Sql.fetchone (filter (fun g => gameId g =? game_id) (games_table d)).

(** Modelled from the spec: [getGameById], as a repository call. *)
Definition get_game_by_id (game_id : Z) : M (option GameRow) :=
  _ <- invoked (GamesGetById game_id) ;;
  run_query (select_by_id game_id).

End games_repo.

(** ** [api/auth.py] *)

Module auth.

(** Modelled from the spec: [nhl_db.config.get_env] is not among the sources.
    It returns the value of an environment variable and raises [RuntimeError]
    when the variable is not set, the exception [get_api_token] expects. *)
Definition get_env (name : string) : M string :=
  w <- get_world ;;
  match assoc name (environ w) with
  | Some v => ret v
  | None => raise (RuntimeError ("Missing required environment variable: " +++ name))
  end.

Definition get_api_token : M string :=
  try_except (get_env "API_BEARER_TOKEN")
    (fun e =>
       match e with
       | RuntimeError _ => raise e
       | _ => raise e
       end).

(** [security = HTTPBearer()]: the credentials of the [Authorization] header,
    or the scheme's own error when the request presents none. *)
Definition security (authorization : option string) : M string :=
  match authorization with
  | Some credentials => ret credentials
  | None => w <- get_world ;; raise (bearer_auto_error w)
  end.

Definition verify_token (credentials : string) : M string :=
  expected_token <- get_api_token ;;
  if negb (String.eqb credentials expected_token) then
    raise (HTTPException 401 "Invalid authentication credentials"
             [("WWW-Authenticate", "Bearer")])
  else ret credentials.

End auth.

(** ** [api/router.py] *)

Module router.

(** A [PlayerResponse] built from a row's keys: the model takes its own
    fields and ignores the key it does not declare. *)
Definition to_player_response (r : PlayerRow) : PlayerResponse :=
  mkPlayer (row_playerId r) (row_playerTeamId r) (row_playerFirstName r)
    (row_playerLastName r) (row_playerNumber r) (row_playerPosition r)
    (row_playerHeadshotUrl r) (row_playerHomeCity r) (row_playerHomeCountry r).

Definition to_team_response (r : TeamRow) : TeamResponse := r.
Definition to_game_response (r : GameRow) : GameResponse := r.
Definition to_play_response (r : PlayRow) : PlayResponse := r.

Definition internal_error {A : Type} (detail : string) : M A :=
  raise (HTTPException 500 detail []).

Definition get_all_teams (token : string) : M (list TeamResponse) :=
  try_except
    (teams <- teams_repo.get_all_teams ;;
     ret (map to_team_response teams))
    (fun _ => internal_error "Failed to fetch teams").

Definition get_active_teams (token : string) : M (list TeamResponse) :=
  try_except
    (teams <- teams_repo.get_active_teams ;;
     ret (map to_team_response teams))
    (fun _ => internal_error "Failed to fetch active teams").

(** [pytz.timezone(timezone)] *)
Definition pytz_timezone (timezone : string) : M tzinfo :=
  w <- get_world ;;
  match assoc timezone (zoneinfo w) with
  | Some tz => ret tz
  | None => raise (UnknownTimeZoneError timezone)
  end.

(** [datetime.now(tz).strftime("%Y-%m-%d")] *)
Definition today_in (tz : tzinfo) : M string :=
  w <- get_world ;;
  ret (Calendar.format_date (Calendar.date_of_seconds (Tz.to_local tz (clock w)))).

(** The statements before the repository call raise nothing but the 400
    built here, which the outer [except HTTPException: raise] passes on, so
    the generic handler is placed around the call, where [date] already has
    its final value. *)
Definition get_games_by_date (date : option string) (timezone : string) (token : string)
  : M (list GameResponse) :=
  tz <- try_except (pytz_timezone timezone)
          (fun e =>
             match e with
             | UnknownTimeZoneError _ =>
                 raise (HTTPException 400
                          ("Invalid timezone: " +++ timezone +++
                           ". Must be a valid IANA timezone string.") [])
             | _ => raise e
             end) ;;
  date' <- match date with
           | None => today_in tz
           | Some d => ret d
           end ;;
  try_except
    (games <- games_repo.get_games_by_date date' timezone ;;
     ret (map to_game_response games))
    (fun e =>
       match e with
       | HTTPException _ _ _ => raise e
       | _ => internal_error ("Failed to fetch games for date " +++ date')
       end).

Definition get_players_by_team (team_id : Z) (token : string) : M (list PlayerResponse) :=
  try_except
    (players <- players_repo.get_players_by_team team_id ;;
     match players with
     | [] => ret []
     | _ => ret (map to_player_response players)
     end)
    (fun _ => internal_error ("Failed to fetch players for team " +++ Text.of_Z team_id)).

Definition get_player_by_id (player_id : Z) (token : string) : M PlayerResponse :=
  try_except
    (player <- players_repo.get_player_by_id player_id ;;
     match player with
     | None => raise (HTTPException 404 ("Player " +++ Text.of_Z player_id +++ " not found") [])
     | Some row => ret (to_player_response row)
     end)
    (fun e =>
       match e with
       | HTTPException _ _ _ => raise e
       | _ => internal_error ("Failed to fetch player " +++ Text.of_Z player_id)
       end).

Definition get_game_detail (game_id : Z) (token : string) : M GameDetailResponse :=
  try_except
    (game <- games_repo.get_game_by_id game_id ;;
     match game with
     | None => raise (HTTPException 404 ("Game " +++ Text.of_Z game_id +++ " not found") [])
     | Some g =>
         plays <- plays_repo.get_plays_by_game game_id ;;
         ret (mkGameDetail (to_game_response g) (map to_play_response plays))
     end)
    (fun e =>
       match e with
       | HTTPException _ _ _ => raise e
       | _ => internal_error ("Failed to fetch game detail for game " +++ Text.of_Z game_id)
       end).

End router.

(** ** [api_app.py]: the application *)

(** A path segment declared [int]: an integer, or text that is none. *)
Inductive PathInt : Type :=
| IntSegment (n : Z)
| OtherSegment (raw : string).

Inductive Route : Type :=
| Health
| ApiTeams
| ApiTeamsActive
| ApiGames (date : option string) (timezone : option string)
| ApiTeamPlayers (team_id : PathInt)
| ApiPlayer (player_id : PathInt)
| ApiGame (game_id : PathInt).

(** [authorization] is the bearer credential of the request, if it has one. *)
Record Request : Type := mkRequest {
  route : Route;
  authorization : option string
}.

Record Response : Type := mkResponse {
  status : Z;
  response_headers : list (string * string);
  body : json
}.

(** The bytes sent: [JSONResponse.render]. *)
Definition body_bytes (r : Response) : string := Json.dumps (body r).

Module Encode.

Definition of_team (t : TeamResponse) : json :=
  JObj [("teamId", JInt (teamId t)); ("teamName", JStr (teamName t));
        ("teamCity", Json.opt JStr (teamCity t));
        ("teamAbbrev", Json.opt JStr (teamAbbrev t));
        ("teamIsActive", JBool (teamIsActive t));
        ("teamLogoUrl", Json.opt JStr (teamLogoUrl t))].

Definition of_player (p : PlayerResponse) : json :=
  JObj [("playerId", JInt (playerId p));
        ("playerTeamId", Json.opt JInt (playerTeamId p));
        ("playerFirstName", JStr (playerFirstName p));
        ("playerLastName", JStr (playerLastName p));
        ("playerNumber", Json.opt JInt (playerNumber p));
        ("playerPosition", Json.opt JStr (playerPosition p));
        ("playerHeadshotUrl", Json.opt JStr (playerHeadshotUrl p));
        ("playerHomeCity", Json.opt JStr (playerHomeCity p));
        ("playerHomeCountry", Json.opt JStr (playerHomeCountry p))].

Definition of_game (g : GameResponse) : json :=
  JObj [("gameId", JInt (gameId g)); ("gameSeason", JInt (gameSeason g));
        ("gameType", JInt (gameType g));
        ("gameDateTimeUtc", JStr (Calendar.isoformat (gameDateTimeUtc g)));
        ("gameVenue", Json.opt JStr (gameVenue g));
        ("gameHomeTeamId", JInt (gameHomeTeamId g));
        ("gameAwayTeamId", JInt (gameAwayTeamId g));
        ("gameState", JStr (gameState g));
        ("gamePeriod", Json.opt JInt (gamePeriod g));
        ("gameClock", Json.opt JStr (gameClock g));
        ("gameHomeScore", JInt (gameHomeScore g));
        ("gameAwayScore", JInt (gameAwayScore g));
        ("gameHomeSOG", JInt (gameHomeSOG g));
        ("gameAwaySOG", JInt (gameAwaySOG g));
        ("homeTeamName", Json.opt JStr (homeTeamName g));
        ("homeTeamAbbrev", Json.opt JStr (homeTeamAbbrev g));
        ("awayTeamName", Json.opt JStr (awayTeamName g));
        ("awayTeamAbbrev", Json.opt JStr (awayTeamAbbrev g))].

Definition of_play (p : PlayResponse) : json :=
  JObj [("playId", JInt (playId p)); ("playGameId", JInt (playGameId p));
        ("playIndex", JInt (playIndex p));
        ("playTeamId", Json.opt JInt (playTeamId p));
        ("playPrimaryPlayerId", Json.opt JInt (playPrimaryPlayerId p));
        ("playLosingPlayerId", Json.opt JInt (playLosingPlayerId p));
        ("playSecondaryPlayerId", Json.opt JInt (playSecondaryPlayerId p));
        ("playTertiaryPlayerId", Json.opt JInt (playTertiaryPlayerId p));
        ("playPeriod", JInt (playPeriod p)); ("playTime", JStr (playTime p));
        ("playTimeReamaining", JStr (playTimeReamaining p));
        ("playType", JStr (playType p));
        ("playZone", Json.opt JInt (playZone p));
        ("playXCoord", Json.opt JInt (playXCoord p));
        ("playYCoord", Json.opt JInt (playYCoord p))].

Definition of_game_detail (d : GameDetailResponse) : json :=
  JObj [("game", of_game (game d)); ("plays", JArr (map of_play (plays d)))].

Definition of_error_item (e : ErrorItem) : json :=
  JObj [("type", JStr (err_type e)); ("loc", JArr (map JStr (err_loc e)));
        ("input", JStr (err_input e))].

End Encode.

Module api_app.

Definition health_check : json :=
  JObj [("status", JStr "healthy"); ("service", JStr "NHL Companion API");
        ("version", JStr "1.0.0")].

Definition default_timezone : string := "America/New_York".

(** The [pattern] constraint of the [date] query parameter. *)
Definition validate_date (date : option string) : list ErrorItem :=
  match date with
  | None => []
  | Some d =>
      if fullmatch date_pattern d then []
      else [mkErrorItem "string_pattern_mismatch" ["query"; "date"] d]
  end.

Definition validate_int (name : string) (p : PathInt) : list ErrorItem :=
  match p with
  | IntSegment _ => []
  | OtherSegment raw => [mkErrorItem "int_parsing" ["path"; name] raw]
  end.

Definition with_int {A : Type} (name : string) (p : PathInt) (k : Z -> M A) : M A :=
  match p with
  | IntSegment n => k n
  | OtherSegment _ => raise (RequestValidationError (validate_int name p))
  end.

(** A route once its dependency is solved: the parameters are validated,
    the handler runs and its result is serialised through the response
    model.  [/health] takes no token. *)
Definition run_route (rt : Route) (token : string) : M json :=
  match rt with
  | Health => ret health_check
  | ApiTeams =>
      teams <- router.get_all_teams token ;;
      ret (JArr (map Encode.of_team teams))
  | ApiTeamsActive =>
      teams <- router.get_active_teams token ;;
      ret (JArr (map Encode.of_team teams))
  | ApiGames date timezone =>
      match validate_date date with
      | [] =>
          games <- router.get_games_by_date date
                     (match timezone with Some tz => tz | None => default_timezone end)
                     token ;;
          ret (JArr (map Encode.of_game games))
      | errors => raise (RequestValidationError errors)
      end
  | ApiTeamPlayers team_id =>
      with_int "team_id" team_id (fun n =>
        players <- router.get_players_by_team n token ;;
        ret (JArr (map Encode.of_player players)))
  | ApiPlayer player_id =>
      with_int "player_id" player_id (fun n =>
        player <- router.get_player_by_id n token ;;
        ret (Encode.of_player player))
  | ApiGame game_id =>
      with_int "game_id" game_id (fun n =>
        detail <- router.get_game_detail n token ;;
        ret (Encode.of_game_detail detail))
  end.

(** A route of the router has [verify_token] as a dependency, itself
    depending on the security scheme; dependencies are solved before the
    parameters are validated. *)
Definition endpoint (r : Request) : M json :=
  match route r with
  | Health => ret health_check
  | rt =>
      credentials <- auth.security (authorization r) ;;
      token <- auth.verify_token credentials ;;
      run_route rt token
  end.

Definition validation_exception_handler (errors : list ErrorItem) : Response :=
  mkResponse 422 []
    (JObj [("detail", JStr "Invalid request parameters");
           ("errors", JArr (map Encode.of_error_item errors))]).

Definition general_exception_handler (exc : Exn) : Response :=
  mkResponse 500 [] (JObj [("detail", JStr "An unexpected error occurred")]).

(** The framework's handler for [HTTPException]. *)
Definition http_exception_handler
  (status_code : Z) (detail : string) (headers : list (string * string)) : Response :=
  mkResponse status_code headers (JObj [("detail", JStr detail)]).

Definition respond (o : Outcome json) : Response :=
  match o with
  | Returned content => mkResponse 200 [] content
  | Raised (HTTPException status_code detail headers) =>
      http_exception_handler status_code detail headers
  | Raised (RequestValidationError errors) => validation_exception_handler errors
  | Raised exc => general_exception_handler exc
  end.

(** One request, served in a world. *)
Definition app (r : Request) (w : World) : Response * World :=
  let (o, w') := endpoint r w in (respond o, w').

End api_app.

(** The repository calls a request causes, and its response. *)
Definition store_calls (r : Request) (w : World) : list RepoCall :=
  skipn (List.length (calls w)) (calls (snd (api_app.app r w))).

Definition response_of (r : Request) (w : World) : Response := fst (api_app.app r w).

(** Requests served one after another, each at its own instant. *)
Fixpoint serve_all (rs : list (Z * Request)) (w : World) : list Response * World :=
  match rs with
  | [] => ([], w)
  | (t, r) :: rest =>
      let (resp, w') := api_app.app r (set_clock w t) in
      let (resps, w'') := serve_all rest w' in
      (resp :: resps, w'')
  end.

(** ** Vocabulary of the statements *)

(** A 401 that carries a [WWW-Authenticate] header. *)
Definition is_challenge (e : Exn) : bool :=
  match e with
  | HTTPException code _ headers =>
      (code =? 401) &&
      match assoc "WWW-Authenticate" headers with Some _ => true | None => false end
  | _ => false
  end.

Definition challenged (resp : Response) : Prop :=
  status resp = 401 /\
  exists v, assoc "WWW-Authenticate" (response_headers resp) = Some v.

(** What [HTTPBearer()] raises for a request without a bearer credential:
    403 in the releases of FastAPI before 0.122, a 401 challenge since. *)
Definition not_authenticated_403 : Exn := HTTPException 403 "Not authenticated" [].

Definition not_authenticated_401 : Exn :=
  HTTPException 401 "Not authenticated" [("WWW-Authenticate", "Bearer")].

(** The zone a request to [/api/games] names, the default filled in. *)
Definition effective_timezone (timezone : option string) : string :=
  match timezone with
  | Some tz => tz
  | None => api_app.default_timezone
  end.

(** The calendar date the instant [t] falls on in the zone [z]. *)
Definition local_date (z : tzinfo) (t : Z) : Z * Z * Z :=
  Calendar.date_of_seconds (t + Tz.offset_at_utc z t).

(** A boolean order, read as a relation. *)
Definition holds {A : Type} (le : A -> A -> bool) (a b : A) : Prop := le a b = true.

(** No connection attempt is scheduled to fail. *)
Definition healthy (w : World) : Prop := faults w = [].

(** Ordered by period, then by position index within the period. *)
Definition period_then_index (a b : PlayResponse) : Prop :=
  playPeriod a < playPeriod b \/
  (playPeriod a = playPeriod b /\ playIndex a <= playIndex b).

(** Ordered by last name, then by first name, ascending in the order [le]. *)
Definition last_then_first (le : string -> string -> bool) (a b : PlayerResponse) : Prop :=
  le (playerLastName a) (playerLastName b) = true /\
  (le (playerLastName b) (playerLastName a) = true ->
   le (playerFirstName a) (playerFirstName b) = true).

Definition total_order (le : string -> string -> bool) : Prop :=
  (forall a b, le a b = true \/ le b a = true) /\
  (forall a b c, le a b = true -> le b c = true -> le a c = true).

(** The world once a repository call is on its trace. *)
Definition logged (w : World) (c : RepoCall) : World := set_calls w (calls w ++ [c]).

(** Two player rows that agree on every column but [playerIsActive]. *)
Definition differ_only_in_active (a b : PlayerRow) : Prop :=
  row_playerId a = row_playerId b /\
  row_playerTeamId a = row_playerTeamId b /\
  row_playerFirstName a = row_playerFirstName b /\
  row_playerLastName a = row_playerLastName b /\
  row_playerNumber a = row_playerNumber b /\
  row_playerPosition a = row_playerPosition b /\
  row_playerHeadshotUrl a = row_playerHeadshotUrl b /\
  row_playerHomeCity a = row_playerHomeCity b /\
  row_playerHomeCountry a = row_playerHomeCountry b.

Definition set_players (w : World) (rows : list PlayerRow) : World :=
  mkWorld (environ w) (zoneinfo w) (bearer_auto_error w)
    (mkDatabase (teams_table (db w)) rows (games_table (db w)) (plays_table (db w))
       (collation (db w)))
    (faults w) (clock w) (calls w).

(** Two worlds with the same configuration, zones, tables and store
    availability; the clocks and the call traces may differ. *)
Definition same_store (w1 w2 : World) : Prop :=
  environ w1 = environ w2 /\ zoneinfo w1 = zoneinfo w2 /\
  bearer_auto_error w1 = bearer_auto_error w2 /\
  db w1 = db w2 /\ faults w1 = faults w2.

(** A computation whose outcome depends on nothing but what [same_store]
    holds fixed. *)
Definition Respects {A : Type} (m : M A) : Prop :=
  forall w1 w2, same_store w1 w2 ->
    fst (m w1) = fst (m w2) /\ same_store (snd (m w1)) (snd (m w2)).

(** For a request to [/api/games] without a date: both worlds are on the
    same calendar date in the zone the request names. *)
Definition same_today (r : Request) (w1 w2 : World) : Prop :=
  match route r with
  | ApiGames None timezone =>
      forall z, assoc (effective_timezone timezone) (zoneinfo w1) = Some z ->
                local_date z (clock w1) = local_date z (clock w2)
  | _ => True
  end.

(** Ordered by team name, ascending in the order [le]. *)
Definition by_team_name (le : string -> string -> bool) (a b : TeamResponse) : Prop :=
  le (teamName a) (teamName b) = true.

(** The [detail] of the 500 with which a handler replaces a failure of its
    repository call. *)
Definition failure_detail (rt : Route) : string :=
  match rt with
  | ApiTeams => "Failed to fetch teams"
  | ApiTeamsActive => "Failed to fetch active teams"
  | ApiTeamPlayers (IntSegment n) => "Failed to fetch players for team " +++ Text.of_Z n
  | ApiPlayer (IntSegment n) => "Failed to fetch player " +++ Text.of_Z n
  | ApiGame (IntSegment n) => "Failed to fetch game detail for game " +++ Text.of_Z n
  | _ => EmptyString
  end.

(** The routes with one repository call at their start and well-typed
    parameters. *)
Definition store_route (rt : Route) : bool :=
  match rt with
  | ApiTeams | ApiTeamsActive => true
  | ApiTeamPlayers (IntSegment _) | ApiPlayer (IntSegment _) | ApiGame (IntSegment _) => true
  | _ => false
  end.

Definition first_call (rt : Route) : list RepoCall :=
  match rt with
  | ApiTeams => [TeamsGetAll]
  | ApiTeamsActive => [TeamsGetActive]
  | ApiTeamPlayers (IntSegment n) => [PlayersGetByTeam n]
  | ApiPlayer (IntSegment n) => [PlayersGetById n]
  | ApiGame (IntSegment n) => [GamesGetById n]
  | _ => []
  end.

(** A computation that leaves configuration, zones, tables and clock alone,
    adds at most [n] repository calls to the trace and uses up at most one
    scheduled connection attempt per call. *)
Definition Frames (n : nat) {A : Type} (m : M A) : Prop :=
  forall w,
    environ (snd (m w)) = environ w /\
    zoneinfo (snd (m w)) = zoneinfo w /\
    bearer_auto_error (snd (m w)) = bearer_auto_error w /\
    db (snd (m w)) = db w /\
    clock (snd (m w)) = clock w /\
    exists (cs : list RepoCall) (k : nat),
      calls (snd (m w)) = calls w ++ cs /\
      (List.length cs <= n)%nat /\ (k <= List.length cs)%nat /\
      faults (snd (m w)) = skipn k (faults w).

(** The statuses a route may answer once the request is past the gate. *)
Definition route_statuses (rt : Route) : list Z :=
  match rt with
  | Health => [200]
  | ApiTeams | ApiTeamsActive => [200; 500]
  | ApiGames _ _ => [200; 400; 422; 500]
  | ApiTeamPlayers _ => [200; 422; 500]
  | ApiPlayer _ | ApiGame _ => [200; 404; 422; 500]
  end.

(** The most repository calls one request to a route can cause. *)
Definition call_budget (rt : Route) : nat :=
  match rt with
  | Health => 0
  | ApiGame _ => 2
  | _ => 1
  end.

(** How a route may end once the request is past the gate: with a value,
    with an [HTTPException] without headers whose status the route allows,
    or with a validation error where the route allows 422. *)
Definition ends_as_route (rt : Route) (o : Outcome json) : Prop :=
  match o with
  | Returned _ => True
  | Raised (HTTPException code _ headers) => In code (route_statuses rt) /\ headers = []
  | Raised (RequestValidationError _) => In 422 (route_statuses rt)
  | Raised _ => False
  end.

(** ** A small installation, for concrete runs

    Three zones with the transitions around 2024, a byte-wise collation and
    a few rows. *)

Module Sample.

Definition utc : tzinfo := StaticTz 0.

(** EST at UTC-5; EDT at UTC-4 from 2024-03-10T07:00Z to 2024-11-03T06:00Z. *)
Definition new_york : tzinfo :=
  DstTz (1699164000, -18000) [(1710054000, -14400); (1730613600, -18000)].

(** NZDT at UTC+13; NZST at UTC+12 from 2024-04-06T14:00Z to 2024-09-28T14:00Z. *)
Definition auckland : tzinfo :=
  DstTz (1695477600, 46800) [(1712412000, 43200); (1727532000, 46800)].

Definition zones : list (string * tzinfo) :=
  [("UTC", utc); ("America/New_York", new_york); ("Pacific/Auckland", auckland)].

Definition challenge : Exn :=
  HTTPException 401 "Not authenticated" [("WWW-Authenticate", "Bearer")].

Definition bruins : TeamRow := mkTeam 6 "Bruins" (Some "Boston") (Some "BOS") true None.
Definition nordiques : TeamRow := mkTeam 32 "Nordiques" (Some "Quebec") None false None.

Definition player (id : Z) (team : option Z) (first last : string) (active : bool)
  : PlayerRow :=
  mkPlayerRow id team first last None (Some "C") None None None active.

Definition evening_game : GameRow :=
  mkGame 2023020701 20232024 2 1705348800 (Some "TD Garden") 6 10 "final"
    (Some 3) None 4 2 31 27 (Some "Bruins") (Some "BOS") (Some "Maple Leafs") (Some "TOR").

Definition late_game : GameRow :=
  mkGame 2023020702 20232024 2 1705370400 None 10 6 "scheduled"
    None None 0 0 0 0 None None None None.

Definition play (id index period : Z) : PlayRow :=
  mkPlay id 2023020701 index None None None None None period "00:00" "20:00"
    "faceoff" None None None.

Definition database : Database :=
  mkDatabase
    [nordiques; bruins]
    [player 1 (Some 6) "Zed" "Adams" true; player 2 (Some 6) "Amy" "Brown" false;
     player 3 None "Free" "Agent" true; player 4 (Some 6) "Al" "Brown" true]
    [evening_game; late_game]
    [play 11 7 2; play 12 3 1; play 13 1 2; play 14 9 1]
    String.leb.

(** Noon UTC on 2024-01-15, the secret provisioned, the store healthy. *)
Definition world : World :=
  mkWorld [("API_BEARER_TOKEN", "s3cret")] zones challenge database [] 1705320000 [].

Definition get (rt : Route) (credential : option string) : Request :=
  mkRequest rt credential.

End Sample.

(** * Properties *)

Ltac split_ifs :=
  repeat match goal with
         | |- context [if ?a <=? ?b then _ else _] => destruct (Z.leb_spec a b); try lia
         | |- context [if ?a <? ?b then _ else _] => destruct (Z.ltb_spec a b); try lia
         | |- context [if ?a =? ?b then _ else _] => destruct (Z.eqb_spec a b); try lia
         end.

Ltac euclid := Z.to_euclidean_division_equations; lia.

(** ** The calendar *)

Lemma days_in_month_cases (y m : Z) :
  1 <= m <= 12 ->
  (m = 2 /\ ((y mod 4 = 0 /\ y mod 100 <> 0) \/ y mod 400 = 0) /\
   Calendar.days_in_month y m = 29) \/
  (m = 2 /\ ~ ((y mod 4 = 0 /\ y mod 100 <> 0) \/ y mod 400 = 0) /\
   Calendar.days_in_month y m = 28) \/
  ((m = 4 \/ m = 6 \/ m = 9 \/ m = 11) /\ Calendar.days_in_month y m = 30) \/
  ((m = 1 \/ m = 3 \/ m = 5 \/ m = 7 \/ m = 8 \/ m = 10 \/ m = 12) /\
   Calendar.days_in_month y m = 31).
Proof.
  intros Hm. unfold Calendar.days_in_month, Calendar.is_leap.
  destruct (Z.eqb_spec m 2) as [-> | H2].
  - destruct (Z.eqb_spec (y mod 4) 0), (Z.eqb_spec (y mod 100) 0),
      (Z.eqb_spec (y mod 400) 0); simpl; lia.
  - destruct (Z.eqb_spec m 4), (Z.eqb_spec m 6), (Z.eqb_spec m 9), (Z.eqb_spec m 11);
      simpl; lia.
Qed.

Lemma valid_date_bounds (y m d : Z) :
  Calendar.valid_date y m d = true ->
  1 <= y <= 9999 /\ 1 <= m <= 12 /\ 1 <= d <= Calendar.days_in_month y m.
Proof.
  unfold Calendar.valid_date. rewrite !andb_true_iff, !Z.leb_le. lia.
Qed.

(** The day after a date is the next day number. *)
Lemma next_day_days (y m d : Z) :
  Calendar.valid_date y m d = true ->
  let '(y', m', d') := Calendar.next_day (y, m, d) in
  Calendar.days_from_civil y' m' d' = Calendar.days_from_civil y m d + 1.
Proof.
  intros Hv. apply valid_date_bounds in Hv. destruct Hv as (Hy & Hm & Hd1 & Hd2).
  unfold Calendar.next_day.
  pose proof (days_in_month_cases y m Hm) as Hdim.
  destruct (Z.ltb_spec d (Calendar.days_in_month y m)) as [Hlt | Hge].
  - unfold Calendar.days_from_civil. lia.
  - assert (Hd : d = Calendar.days_in_month y m) by lia. clear Hge Hd2.
    revert Hdim Hd. generalize (Calendar.days_in_month y m). intros dim Hdim Hd. subst dim.
    destruct (Z.ltb_spec m 12).
    + unfold Calendar.days_from_civil. split_ifs.
      all: assert (Hc : m = 1 \/ m = 2 \/ m = 3 \/ m = 4 \/ m = 5 \/ m = 6 \/ m = 7 \/
                        m = 8 \/ m = 9 \/ m = 10 \/ m = 11) by lia.
      all: repeat (destruct Hc as [-> | Hc]); try subst m; try lia.
      all: euclid.
    + assert (m = 12) by lia. subst m. unfold Calendar.days_from_civil. split_ifs.
      euclid.
Qed.

Lemma next_midnight (y m d : Z) :
  Calendar.valid_date y m d = true ->
  (let '(y', m', d') := Calendar.next_day (y, m, d) in Calendar.midnight y' m' d') =
  Calendar.midnight y m d + Calendar.seconds_per_day.
Proof.
  intros Hv. pose proof (next_day_days y m d Hv) as H.
  destruct (Calendar.next_day (y, m, d)) as [[y' m'] d'].
  unfold Calendar.midnight, Calendar.seconds_per_day. rewrite H. lia.
Qed.

(** Within a year that starts on 1 March, the month and the day of the month
    are read back from the day of the year. *)
Lemma month_of_doy (mp d : Z) :
  0 <= mp <= 11 -> 1 <= d <= 31 ->
  (mp = 11 -> d <= 29) ->
  (mp = 1 \/ mp = 3 \/ mp = 6 \/ mp = 8 -> d <= 30) ->
  let doy := (153 * mp + 2) / 5 + d - 1 in
  (5 * doy + 2) / 153 = mp /\ doy - (153 * ((5 * doy + 2) / 153) + 2) / 5 + 1 = d.
Proof.
  intros Hmp Hd H11 H30 doy. subst doy.
  assert (Hc : mp = 0 \/ mp = 1 \/ mp = 2 \/ mp = 3 \/ mp = 4 \/ mp = 5 \/ mp = 6 \/
               mp = 7 \/ mp = 8 \/ mp = 9 \/ mp = 10 \/ mp = 11) by lia.
  repeat (destruct Hc as [-> | Hc]); try subst mp; euclid.
Qed.

(** Within a 400-year era, the year is read back from the day of the era. *)
Lemma yoe_of_doe (yoe doy : Z) :
  0 <= yoe < 400 -> 0 <= doy ->
  doy < (if yoe =? 399 then 366
         else if ((yoe + 1) mod 4 =? 0) && negb ((yoe + 1) mod 100 =? 0) then 366
         else 365) ->
  let doe := yoe * 365 + yoe / 4 - yoe / 100 + doy in
  (doe - doe / 1460 + doe / 36524 - doe / 146096) / 365 = yoe.
Proof.
  intros Hy Hd0 Hd1 doe. subst doe.
  destruct (Z.eqb_spec yoe 399).
  - subst. euclid.
  - destruct (Z.eqb_spec ((yoe + 1) mod 4) 0), (Z.eqb_spec ((yoe + 1) mod 100) 0);
      simpl in Hd1; euclid.
Qed.

(** Day numbers and calendar dates correspond. *)
Lemma civil_from_days_from_civil (y m d : Z) :
  1 <= m <= 12 -> 1 <= d <= Calendar.days_in_month y m ->
  Calendar.civil_from_days (Calendar.days_from_civil y m d) = (y, m, d).
Proof.
  intros Hm Hd.
  pose proof (days_in_month_cases y m Hm) as Hdim.
  set (y' := if m <=? 2 then y - 1 else y).
  set (mp := if 2 <? m then m - 3 else m + 9).
  set (era := y' / 400).
  set (yoe := y' - era * 400).
  set (doy := (153 * mp + 2) / 5 + d - 1).
  assert (Hmp : 0 <= mp <= 11) by (unfold mp; destruct (Z.ltb_spec 2 m); lia).
  assert (Hyoe : 0 <= yoe < 400) by (unfold yoe, era; euclid).
  assert (Hmd : (5 * doy + 2) / 153 = mp /\
                doy - (153 * ((5 * doy + 2) / 153) + 2) / 5 + 1 = d).
  { apply month_of_doy; auto; unfold mp; destruct (Z.ltb_spec 2 m); lia. }
  assert (Hdoy0 : 0 <= doy) by (unfold doy; euclid).
  assert (Hdoy : doy < (if yoe =? 399 then 366
                        else if ((yoe + 1) mod 4 =? 0) && negb ((yoe + 1) mod 100 =? 0)
                             then 366 else 365)).
  { assert (Hlast : doy <= 364 \/ (mp = 11 /\ d = 29 /\ doy = 365)).
    { unfold doy.
      assert (Hc : mp = 0 \/ mp = 1 \/ mp = 2 \/ mp = 3 \/ mp = 4 \/ mp = 5 \/ mp = 6 \/
                   mp = 7 \/ mp = 8 \/ mp = 9 \/ mp = 10 \/ mp = 11) by lia.
      unfold mp in *. destruct (Z.ltb_spec 2 m);
        repeat (destruct Hc as [Hc | Hc]); euclid. }
    destruct Hlast as [H | (H1 & H2 & H3)].
    - destruct (yoe =? 399); [lia |]. destruct (_ && _); lia.
    - assert (m = 2) by (unfold mp in H1; destruct (Z.ltb_spec 2 m); lia). subst m.
      assert (Hl : (y mod 4 = 0 /\ y mod 100 <> 0) \/ y mod 400 = 0) by lia.
      assert (y' = y - 1) by reflexivity.
      destruct (Z.eqb_spec yoe 399); [lia |].
      destruct (Z.eqb_spec ((yoe + 1) mod 4) 0), (Z.eqb_spec ((yoe + 1) mod 100) 0);
        simpl; try lia; unfold yoe, era in *; euclid. }
  unfold Calendar.civil_from_days, Calendar.days_from_civil.
  fold y'. fold era. fold yoe. fold mp. fold doy.
  set (doe := yoe * 365 + yoe / 4 - yoe / 100 + doy).
  assert (Hdoe : 0 <= doe < 146097).
  { unfold doe. destruct (Z.eqb_spec yoe 399); [| destruct (_ && _)]; euclid. }
  replace (era * 146097 + doe - 719468 + 719468) with (doe + era * 146097) by lia.
  rewrite Z.div_add by lia. rewrite (Z.div_small doe) by lia. simpl (0 + era).
  replace (doe + era * 146097 - era * 146097) with doe by lia.
  pose proof (yoe_of_doe yoe doy Hyoe Hdoy0 Hdoy) as Hy. cbv zeta in Hy. fold doe in Hy.
  rewrite Hy.
  replace (doe - (365 * yoe + yoe / 4 - yoe / 100)) with doy by (unfold doe; lia).
  destruct Hmd as [-> ->].
  assert (Hyy : yoe + era * 400 = y') by (unfold yoe; lia).
  rewrite Hyy. unfold mp, y'.
  destruct (Z.ltb_spec 2 m), (Z.leb_spec m 2); try lia.
  - destruct (Z.ltb_spec (m - 3) 10); [| lia].
    destruct (Z.leb_spec (m - 3 + 3) 2); [lia |].
    apply f_equal2; [apply f_equal2 |]; lia.
  - destruct (Z.ltb_spec (m + 9) 10); [lia |].
    destruct (Z.leb_spec (m + 9 - 9) 2); [| lia].
    apply f_equal2; [apply f_equal2 |]; lia.
Qed.

(** A wall-clock reading [s] seconds into the day [y-m-d] is on that date. *)
Lemma date_of_seconds_on_day (y m d s : Z) :
  Calendar.valid_date y m d = true ->
  0 <= s < Calendar.seconds_per_day ->
  Calendar.date_of_seconds (Calendar.midnight y m d + s) = (y, m, d).
Proof.
  intros Hv Hs. apply valid_date_bounds in Hv. destruct Hv as (_ & Hm & Hd).
  unfold Calendar.date_of_seconds, Calendar.midnight, Calendar.seconds_per_day in *.
  replace ((Calendar.days_from_civil y m d * 86400 + s) / 86400)
    with (Calendar.days_from_civil y m d).
  - now apply civil_from_days_from_civil.
  - generalize (Calendar.days_from_civil y m d). intros n. euclid.
Qed.

(** ** Running computations *)

Lemma skipn_length_app {A : Type} (l r : list A) :
  skipn (List.length l) (l ++ r) = r.
Proof. induction l as [| x l IH]; simpl; auto. Qed.

Lemma skipn_length_self {A : Type} (l : list A) : skipn (List.length l) l = [].
Proof. induction l as [| x l IH]; simpl; auto. Qed.

Lemma run_query_calls {A : Type} (q : Database -> A) (w : World) :
  calls (snd (run_query q w)) = calls w /\ db (snd (run_query q w)) = db w.
Proof.
  unfold run_query. destruct (faults w) as [| [|] rest]; simpl; auto.
Qed.

Lemma run_query_healthy {A : Type} (q : Database -> A) (w : World) :
  faults w = [] -> run_query q w = (Returned (q (db w)), w).
Proof. intros H. unfold run_query. rewrite H. reflexivity. Qed.

(** ** The token verifier *)

Section Verifier.

Variable w : World.

Lemma get_api_token_set (secret : string) :
  assoc "API_BEARER_TOKEN" (environ w) = Some secret ->
  auth.get_api_token w = (Returned secret, w).
Proof.
  intros H. unfold auth.get_api_token, try_except, auth.get_env, bind, get_world.
  rewrite H. reflexivity.
Qed.

Lemma get_api_token_unset :
  assoc "API_BEARER_TOKEN" (environ w) = None ->
  exists msg, auth.get_api_token w = (Raised (RuntimeError msg), w).
Proof.
  intros H. unfold auth.get_api_token, try_except, auth.get_env, bind, get_world.
  rewrite H. simpl. eexists. reflexivity.
Qed.

Lemma verify_token_accepts (secret : string) :
  assoc "API_BEARER_TOKEN" (environ w) = Some secret ->
  auth.verify_token secret w = (Returned secret, w).
Proof.
  intros H. unfold auth.verify_token, bind. rewrite (get_api_token_set _ H).
  rewrite String.eqb_refl. reflexivity.
Qed.

Lemma verify_token_rejects (secret credentials : string) :
  assoc "API_BEARER_TOKEN" (environ w) = Some secret ->
  credentials <> secret ->
  auth.verify_token credentials w =
    (Raised (HTTPException 401 "Invalid authentication credentials"
               [("WWW-Authenticate", "Bearer")]), w).
Proof.
  intros H Hne. unfold auth.verify_token, bind. rewrite (get_api_token_set _ H).
  destruct (String.eqb_spec credentials secret) as [E | E]; [contradiction | reflexivity].
Qed.

Lemma verify_token_unconfigured (credentials : string) :
  assoc "API_BEARER_TOKEN" (environ w) = None ->
  exists msg, auth.verify_token credentials w = (Raised (RuntimeError msg), w).
Proof.
  intros H. destruct (get_api_token_unset H) as [msg E].
  exists msg. unfold auth.verify_token, bind. rewrite E. reflexivity.
Qed.

End Verifier.

(** What a request to a route of the router runs. *)
Lemma endpoint_api (r : Request) (w : World) :
  route r <> Health ->
  api_app.endpoint r w =
    (credentials <- auth.security (authorization r) ;;
     token <- auth.verify_token credentials ;;
     api_app.run_route (route r) token) w.
Proof.
  intros H. unfold api_app.endpoint. destruct (route r); try reflexivity.
  contradiction.
Qed.

(** A request that passes the gate runs its route with the token. *)
Lemma endpoint_authenticated (r : Request) (w : World) (secret : string) :
  route r <> Health ->
  assoc "API_BEARER_TOKEN" (environ w) = Some secret ->
  authorization r = Some secret ->
  api_app.endpoint r w = api_app.run_route (route r) secret w.
Proof.
  intros Hr Hs Ha. rewrite (endpoint_api _ _ Hr). unfold bind at 1.
  rewrite Ha. simpl. unfold bind at 1. rewrite (verify_token_accepts _ _ Hs).
  reflexivity.
Qed.

Lemma respond_challenge (e : Exn) :
  is_challenge e = true -> challenged (api_app.respond (Raised e)).
Proof.
  destruct e as [code d h | | | | |]; simpl; try discriminate.
  intros H. apply andb_prop in H. destruct H as [Hc Hh].
  apply Z.eqb_eq in Hc. subst code.
  split; [reflexivity |].
  simpl. destruct (assoc "WWW-Authenticate" h) as [v |]; [eauto | discriminate].
Qed.

(** ** C1: the gate in front of every route of the router *)

Lemma endpoint_bad_credential (r : Request) (w : World) (secret : string) :
  route r <> Health ->
  assoc "API_BEARER_TOKEN" (environ w) = Some secret ->
  authorization r <> Some secret ->
  api_app.endpoint r w =
    (Raised (match authorization r with
             | Some _ => HTTPException 401 "Invalid authentication credentials"
                           [("WWW-Authenticate", "Bearer")]
             | None => bearer_auto_error w
             end), w).
Proof.
  intros Hr Hs Hbad. rewrite (endpoint_api _ _ Hr). unfold bind at 1.
  destruct (authorization r) as [c |]; simpl.
  - assert (Hne : c <> secret) by congruence.
    unfold bind. rewrite (verify_token_rejects _ _ _ Hs Hne). reflexivity.
  - reflexivity.
Qed.

Lemma C1_missing_credential_counterexample :
  authorization (Sample.get ApiTeams None) <> Some "s3cret" /\
  status (response_of (Sample.get ApiTeams None)
            (mkWorld [("API_BEARER_TOKEN", "s3cret")] Sample.zones not_authenticated_403
               Sample.database [] 1705320000 [])) = 403 /\
  ~ challenged (response_of (Sample.get ApiTeams None)
                  (mkWorld [("API_BEARER_TOKEN", "s3cret")] Sample.zones
                     not_authenticated_403 Sample.database [] 1705320000 [])).
Proof.
  split; [discriminate |]. split; [reflexivity |].
  intros [Hstatus _]. discriminate Hstatus.
Qed.

(** C1, amended.  On every route under [/api], with the secret configured: a
    request whose bearer credential differs from the secret is answered 401
    with a [WWW-Authenticate] header by [verify_token]; a request without a
    credential is answered with the error of the security scheme, raised
    before [verify_token] runs, which is the 403 of FastAPI's [HTTPBearer]
    before release 0.122 and its 401 challenge since.  In both cases no
    repository function is called and the world is left as it was. *)
Theorem C1_bad_credential_never_reaches_store :
  forall (w : World) (r : Request) (secret : string),
    route r <> Health ->
    assoc "API_BEARER_TOKEN" (environ w) = Some secret ->
    authorization r <> Some secret ->
    (authorization r <> None -> challenged (response_of r w)) /\
    (authorization r = None ->
     response_of r w = api_app.respond (Raised (bearer_auto_error w)) /\
     (bearer_auto_error w = not_authenticated_403 ->
      response_of r w =
        mkResponse 403 [] (JObj [("detail", JStr "Not authenticated")])) /\
     (bearer_auto_error w = not_authenticated_401 -> challenged (response_of r w))) /\
    store_calls r w = [] /\
    snd (api_app.app r w) = w.
Proof.
  intros w r secret Hr Hs Hbad.
  unfold store_calls, response_of, api_app.app.
  rewrite (endpoint_bad_credential _ _ _ Hr Hs Hbad). simpl.
  split; [| split; [| split; [apply skipn_length_self | reflexivity]]].
  - intros Hsome. destruct (authorization r) as [c |]; [| contradiction].
    split; [reflexivity | exists "Bearer"; reflexivity].
  - intros Hnone. rewrite Hnone. split; [reflexivity |]. split.
    + intros ->. reflexivity.
    + intros ->. split; [reflexivity | exists "Bearer"; reflexivity].
Qed.

Lemma C1_witness :
  (challenged (response_of (Sample.get ApiTeams (Some "guess")) Sample.world) /\
   store_calls (Sample.get ApiTeams (Some "guess")) Sample.world = [] /\
   snd (api_app.app (Sample.get ApiTeams (Some "guess")) Sample.world) = Sample.world) /\
  (response_of (Sample.get (ApiGame (IntSegment 2023020701)) None)
     (mkWorld [("API_BEARER_TOKEN", "s3cret")] Sample.zones not_authenticated_403
        Sample.database [] 1705320000 []) =
     mkResponse 403 [] (JObj [("detail", JStr "Not authenticated")]) /\
   store_calls (Sample.get (ApiGame (IntSegment 2023020701)) None)
     (mkWorld [("API_BEARER_TOKEN", "s3cret")] Sample.zones not_authenticated_403
        Sample.database [] 1705320000 []) = []).
Proof.
  split.
  - destruct (C1_bad_credential_never_reaches_store Sample.world
                (Sample.get ApiTeams (Some "guess")) "s3cret")
      as (Hdiff & _ & Hcalls & Hworld).
    + discriminate.
    + reflexivity.
    + discriminate.
    + split; [apply Hdiff; discriminate | split; assumption].
  - destruct (C1_bad_credential_never_reaches_store
                (mkWorld [("API_BEARER_TOKEN", "s3cret")] Sample.zones
                   not_authenticated_403 Sample.database [] 1705320000 [])
                (Sample.get (ApiGame (IntSegment 2023020701)) None) "s3cret")
      as (_ & Hmissing & Hcalls & _).
    + discriminate.
    + reflexivity.
    + discriminate.
    + destruct (Hmissing eq_refl) as (_ & H403 & _).
      split; [apply H403; reflexivity | exact Hcalls].
Defined.

(** ** C9: a secret that is not provisioned *)

Lemma endpoint_unconfigured (r : Request) (w : World) (credentials : string) :
  route r <> Health ->
  assoc "API_BEARER_TOKEN" (environ w) = None ->
  authorization r = Some credentials ->
  exists msg, api_app.endpoint r w = (Raised (RuntimeError msg), w).
Proof.
  intros Hr Hs Ha. destruct (verify_token_unconfigured w credentials Hs) as [msg E].
  exists msg. rewrite (endpoint_api _ _ Hr). unfold bind at 1.
  rewrite Ha. simpl. unfold bind. rewrite E. reflexivity.
Qed.

(** C9.  With [API_BEARER_TOKEN] absent from the environment, a request to
    any route under [/api] that presents a bearer credential, whatever the
    credential, gets the 500 of the general exception handler with its
    generic body: not a 401, and no repository function is called. *)
Theorem C9_unprovisioned_secret_is_server_error :
  forall (w : World) (r : Request) (credentials : string),
    route r <> Health ->
    assoc "API_BEARER_TOKEN" (environ w) = None ->
    authorization r = Some credentials ->
    response_of r w =
      mkResponse 500 [] (JObj [("detail", JStr "An unexpected error occurred")]) /\
    status (response_of r w) <> 401 /\
    store_calls r w = [].
Proof.
  intros w r c Hr Hs Ha.
  destruct (endpoint_unconfigured _ _ _ Hr Hs Ha) as [msg E].
  unfold store_calls, response_of, api_app.app. rewrite E. simpl.
  repeat split.
  - discriminate.
  - apply skipn_length_self.
Qed.

Lemma C9_witness :
  response_of (Sample.get ApiTeams (Some "s3cret")) (mkWorld [] Sample.zones
     Sample.challenge Sample.database [] 0 []) =
    mkResponse 500 [] (JObj [("detail", JStr "An unexpected error occurred")]) /\
  status (response_of (Sample.get ApiTeams (Some "s3cret")) (mkWorld [] Sample.zones
     Sample.challenge Sample.database [] 0 [])) <> 401 /\
  store_calls (Sample.get ApiTeams (Some "s3cret")) (mkWorld [] Sample.zones
     Sample.challenge Sample.database [] 0 []) = [].
Proof.
  apply (C9_unprovisioned_secret_is_server_error
           (mkWorld [] Sample.zones Sample.challenge Sample.database [] 0 [])
           (Sample.get ApiTeams (Some "s3cret")) "s3cret").
  - discriminate.
  - reflexivity.
  - reflexivity.
Defined.

(** ** C2: a malformed date *)

Lemma fullmatch_date_shape (s : string) :
  fullmatch date_pattern s = true <->
  exists y1 y2 y3 y4 m1 m2 d1 d2 : Z,
    Forall (fun cp => Text.is_decimal_digit cp = true) [y1; y2; y3; y4; m1; m2; d1; d2] /\
    Text.code_points s = Some [y1; y2; y3; y4; 45; m1; m2; 45; d1; d2].
Proof.
  unfold fullmatch, date_pattern. split.
  - destruct (Text.code_points s) as [cps |]; [| discriminate].
    intros H.
    do 10 (destruct cps as [| ? cps];
           [cbn [matches_all atom_matches] in H;
            repeat (apply andb_prop in H; destruct H as [_ H]); discriminate H |]).
    destruct cps;
      [| cbn [matches_all atom_matches] in H;
         repeat (apply andb_prop in H; destruct H as [_ H]); discriminate H].
    cbn [matches_all atom_matches] in H.
    repeat match goal with
           | H : _ && _ = true |- _ => apply andb_prop in H; destruct H
           | H : (_ =? Text.byte _) = true |- _ => apply Z.eqb_eq in H; subst
           end.
    do 8 eexists. split; [| reflexivity].
    repeat constructor; assumption.
  - intros (y1 & y2 & y3 & y4 & m1 & m2 & d1 & d2 & Hd & ->).
    repeat match goal with
           | H : Forall _ (_ :: _) |- _ => inversion H; clear H; subst
           end.
    cbn [matches_all atom_matches].
    repeat match goal with
           | H : Text.is_decimal_digit _ = true |- _ => rewrite H; clear H
           end.
    reflexivity.
Qed.




(** ** C5: a timezone [pytz] does not know *)

(** The gate, decided from the request and the environment alone. *)
Lemma endpoint_decided (r : Request) (w : World) :
  route r <> Health ->
  api_app.endpoint r w =
    match authorization r with
    | None => (Raised (bearer_auto_error w), w)
    | Some c =>
        match assoc "API_BEARER_TOKEN" (environ w) with
        | None =>
            (Raised (RuntimeError
                       "Missing required environment variable: API_BEARER_TOKEN"), w)
        | Some s =>
            if String.eqb c s then api_app.run_route (route r) c w
            else (Raised (HTTPException 401 "Invalid authentication credentials"
                            [("WWW-Authenticate", "Bearer")]), w)
        end
    end.
Proof.
  intros Hr. rewrite (endpoint_api _ _ Hr). unfold bind at 1.
  destruct (authorization r) as [c |]; simpl; [| reflexivity].
  unfold bind, auth.verify_token, bind, auth.get_api_token, try_except,
    auth.get_env, bind, get_world.
  destruct (assoc "API_BEARER_TOKEN" (environ w)) as [s |]; simpl; [| reflexivity].
  destruct (String.eqb c s); reflexivity.
Qed.

(** Requests stopped at the gate or at validation leave the world as it is. *)
Lemma endpoint_gate (r : Request) (w : World) :
  route r <> Health ->
  (exists e, api_app.endpoint r w = (Raised e, w)) \/
  (exists secret,
     assoc "API_BEARER_TOKEN" (environ w) = Some secret /\
     authorization r = Some secret /\
     api_app.endpoint r w = api_app.run_route (route r) secret w).
Proof.
  intros Hr.
  destruct (assoc "API_BEARER_TOKEN" (environ w)) as [secret |] eqn:Hs.
  - destruct (authorization r) as [c |] eqn:Ha.
    + destruct (String.eqb_spec c secret) as [-> | Hne].
      * right. exists secret. repeat split; auto.
        apply (endpoint_authenticated _ _ _ Hr Hs Ha).
      * left. eexists. rewrite (endpoint_bad_credential r w secret Hr Hs).
        -- reflexivity.
        -- rewrite Ha. congruence.
    + left. eexists. rewrite (endpoint_bad_credential r w secret Hr Hs).
      * reflexivity.
      * rewrite Ha. discriminate.
  - destruct (authorization r) as [c |] eqn:Ha.
    + left. destruct (endpoint_unconfigured _ _ _ Hr Hs Ha) as [msg E]. eauto.
    + left. eexists. rewrite (endpoint_api _ _ Hr). unfold bind at 1.
      rewrite Ha. reflexivity.
Qed.

(** The handler itself: whatever the date, an unknown zone is a 400 raised
    before anything else happens. *)
Lemma get_games_by_date_unknown_zone
  (date : option string) (timezone token : string) (w : World) :
  assoc timezone (zoneinfo w) = None ->
  router.get_games_by_date date timezone token w =
    (Raised (HTTPException 400
               ("Invalid timezone: " +++ timezone +++
                ". Must be a valid IANA timezone string.") []), w).
Proof.
  intros H. unfold router.get_games_by_date, bind at 1.
  unfold try_except, router.pytz_timezone, bind, get_world. rewrite H. reflexivity.
Qed.

Lemma C5_malformed_date_first_counterexample :
  assoc (effective_timezone (Some "Not/AZone")) (zoneinfo Sample.world) = None /\
  status (response_of
            (Sample.get (ApiGames (Some "2024-1-5") (Some "Not/AZone")) (Some "s3cret"))
            Sample.world) = 422 /\
  status (response_of
            (Sample.get (ApiGames (Some "2024-1-5") (Some "Not/AZone")) (Some "s3cret"))
            Sample.world) <> 400.
Proof. vm_compute. repeat split; discriminate. Qed.

(** C5, amended.  A request to [/api/games] whose timezone is not a zone
    [pytz] knows causes no repository call; when it is past the gate (secret
    configured and presented) and past the shape check of [date] (absent or
    [YYYY-MM-DD]), which run before the handler, it is answered 400 with the
    Invalid-timezone detail. *)
Theorem C5_unknown_timezone_rejected_before_store :
  forall (w : World) (r : Request) (date timezone : option string),
    route r = ApiGames date timezone ->
    assoc (effective_timezone timezone) (zoneinfo w) = None ->
    store_calls r w = [] /\
    (forall secret,
        assoc "API_BEARER_TOKEN" (environ w) = Some secret ->
        authorization r = Some secret ->
        api_app.validate_date date = [] ->
        response_of r w =
          mkResponse 400 []
            (JObj [("detail",
                    JStr ("Invalid timezone: " +++ effective_timezone timezone +++
                          ". Must be a valid IANA timezone string."))])).
Proof.
  intros w r date tz Hr Hz.
  assert (Hnh : route r <> Health) by (rewrite Hr; discriminate).
  assert (Hrun : forall secret,
             api_app.validate_date date = [] ->
             api_app.run_route (route r) secret w =
               (Raised (HTTPException 400
                          ("Invalid timezone: " +++ effective_timezone tz +++
                           ". Must be a valid IANA timezone string.") []), w)).
  { intros secret Hv. rewrite Hr. unfold api_app.run_route. rewrite Hv.
    unfold bind at 1. fold (effective_timezone tz).
    rewrite (get_games_by_date_unknown_zone _ _ _ _ Hz). reflexivity. }
  split.
  - unfold store_calls, api_app.app.
    destruct (endpoint_gate r w Hnh) as [[e E] | (secret & Hs & Ha & E)].
    + rewrite E. simpl. apply skipn_length_self.
    + rewrite E. destruct (api_app.validate_date date) as [| err errs] eqn:Hv.
      * rewrite (Hrun secret eq_refl). simpl. apply skipn_length_self.
      * rewrite Hr. unfold api_app.run_route. rewrite Hv. simpl.
        apply skipn_length_self.
  - intros secret Hs Ha Hv. unfold response_of, api_app.app.
    rewrite (endpoint_authenticated _ _ _ Hnh Hs Ha), (Hrun secret Hv). reflexivity.
Qed.

Lemma C5_witness :
  store_calls (Sample.get (ApiGames None (Some "Not/AZone")) (Some "s3cret"))
    Sample.world = [] /\
  status (response_of (Sample.get (ApiGames None (Some "Not/AZone")) (Some "s3cret"))
            Sample.world) = 400.
Proof.
  destruct (C5_unknown_timezone_rejected_before_store Sample.world
              (Sample.get (ApiGames None (Some "Not/AZone")) (Some "s3cret"))
              None (Some "Not/AZone") eq_refl eq_refl) as [Hcalls Hresp].
  split.
  - exact Hcalls.
  - rewrite (Hresp "s3cret" eq_refl eq_refl eq_refl). reflexivity.
Defined.

(** ** C6: "today" when no date is given *)

Lemma games_repo_call_trace (date timezone : string) (w : World) :
  let w' := snd (games_repo.get_games_by_date date timezone w) in
  calls w' = calls w ++ [GamesGetByDate date timezone] /\
  environ w' = environ w /\ zoneinfo w' = zoneinfo w.
Proof.
  unfold games_repo.get_games_by_date, bind, invoked, get_world. simpl.
  destruct (assoc timezone (zoneinfo w)) as [z |]; [| simpl; auto].
  destruct (games_repo.parse_iso_date date) as [ymd |]; [| simpl; auto].
  unfold run_query. simpl.
  destruct (faults w) as [| [|] rest]; simpl; auto.
Qed.

Lemma games_route_today
  (r : Request) (w : World) (secret : string) (timezone : option string) (z : tzinfo) :
  assoc "API_BEARER_TOKEN" (environ w) = Some secret ->
  authorization r = Some secret ->
  route r = ApiGames None timezone ->
  assoc (effective_timezone timezone) (zoneinfo w) = Some z ->
  let w' := snd (api_app.app r w) in
  calls w' = calls w ++
    [GamesGetByDate (Calendar.format_date (local_date z (clock w)))
       (effective_timezone timezone)] /\
  environ w' = environ w /\ zoneinfo w' = zoneinfo w.
Proof.
  intros Hs Ha Hr Hz.
  assert (Hnh : route r <> Health) by (rewrite Hr; discriminate).
  unfold api_app.app. rewrite (endpoint_authenticated _ _ _ Hnh Hs Ha), Hr.
  unfold api_app.run_route.
  change (api_app.validate_date None) with (@nil ErrorItem). cbv iota.
  fold (effective_timezone timezone).
  unfold router.get_games_by_date, router.pytz_timezone, router.today_in.
  unfold bind, try_except, get_world, ret. rewrite Hz.
  unfold Tz.to_local. fold (local_date z (clock w)).
  pose proof (games_repo_call_trace
                (Calendar.format_date (local_date z (clock w)))
                (effective_timezone timezone) w) as Ht.
  destruct (games_repo.get_games_by_date _ _ w) as [[rows | e] w1]; simpl in Ht.
  - exact Ht.
  - destruct e; exact Ht.
Qed.

(** C6.  For an authenticated request to [/api/games] without a date, the
    date handed to the games repository is the calendar date of the clock's
    current instant in the zone the request names: the date [y-m-d] whenever
    the zone's wall clock then reads some time of day on [y-m-d].  When the
    same request is served twice, at instants [t1] and [t2], each run reads
    the clock again and uses the date of its own instant. *)
Theorem C6_today_is_read_per_request_in_zone :
  forall (w : World) (r : Request) (secret : string)
         (timezone : option string) (z : tzinfo),
    assoc "API_BEARER_TOKEN" (environ w) = Some secret ->
    authorization r = Some secret ->
    route r = ApiGames None timezone ->
    assoc (effective_timezone timezone) (zoneinfo w) = Some z ->
    store_calls r w =
      [GamesGetByDate (Calendar.format_date (local_date z (clock w)))
         (effective_timezone timezone)] /\
    (forall y m d s : Z,
        Calendar.valid_date y m d = true ->
        0 <= s < Calendar.seconds_per_day ->
        Tz.to_local z (clock w) = Calendar.midnight y m d + s ->
        local_date z (clock w) = (y, m, d)) /\
    forall t1 t2 : Z,
      calls (snd (serve_all [(t1, r); (t2, r)] w)) =
        calls w ++
        [GamesGetByDate (Calendar.format_date (local_date z t1))
           (effective_timezone timezone);
         GamesGetByDate (Calendar.format_date (local_date z t2))
           (effective_timezone timezone)].
Proof.
  intros w r secret timezone z Hs Ha Hr Hz. split; [| split].
  - unfold store_calls.
    destruct (games_route_today r w secret timezone z Hs Ha Hr Hz) as [Hc _].
    rewrite Hc. apply skipn_length_app.
  - intros y m d s Hv Hsec Hwall. unfold local_date.
    unfold Tz.to_local in Hwall. rewrite Hwall.
    now apply date_of_seconds_on_day.
  - intros t1 t2. simpl.
    destruct (games_route_today r (set_clock w t1) secret timezone z Hs Ha Hr Hz)
      as (Hc1 & He1 & Hz1).
    destruct (api_app.app r (set_clock w t1)) as [resp1 w1]. simpl in Hc1, He1, Hz1.
    assert (Hs2 : assoc "API_BEARER_TOKEN" (environ (set_clock w1 t2)) = Some secret)
      by (simpl; rewrite He1; exact Hs).
    assert (Hz2 : assoc (effective_timezone timezone) (zoneinfo (set_clock w1 t2)) = Some z)
      by (simpl; rewrite Hz1; exact Hz).
    destruct (games_route_today r (set_clock w1 t2) secret timezone z Hs2 Ha Hr Hz2)
      as (Hc2 & _ & _).
    destruct (api_app.app r (set_clock w1 t2)) as [resp2 w2]. simpl in Hc2 |- *.
    rewrite Hc2, Hc1, <- app_assoc. reflexivity.
Qed.

Lemma C6_witness :
  store_calls (Sample.get (ApiGames None (Some "Pacific/Auckland")) (Some "s3cret"))
    Sample.world = [GamesGetByDate "2024-01-16" "Pacific/Auckland"] /\
  calls (snd (serve_all
                [(1705320000, Sample.get (ApiGames None (Some "Pacific/Auckland"))
                                (Some "s3cret"));
                 (1705406400, Sample.get (ApiGames None (Some "Pacific/Auckland"))
                                (Some "s3cret"))]
                Sample.world)) =
    [GamesGetByDate "2024-01-16" "Pacific/Auckland";
     GamesGetByDate "2024-01-17" "Pacific/Auckland"].
Proof.
  destruct (C6_today_is_read_per_request_in_zone Sample.world
              (Sample.get (ApiGames None (Some "Pacific/Auckland")) (Some "s3cret"))
              "s3cret" (Some "Pacific/Auckland") Sample.auckland
              eq_refl eq_refl eq_refl eq_refl) as (Hone & _ & Htwo).
  split.
  - rewrite Hone. vm_compute. reflexivity.
  - rewrite (Htwo 1705320000 1705406400). vm_compute. reflexivity.
Defined.

(** ** Sorting: what [ORDER BY] delivers *)

Section OrderBy.

Context {A : Type} (le : A -> A -> bool).

Lemma insert_by_perm (x : A) (l : list A) :
  Permutation (Sql.insert_by le x l) (x :: l).
Proof.
  induction l as [| y l IH]; simpl; [reflexivity |].
  destruct (le x y); [reflexivity |].
  rewrite IH. apply perm_swap.
Qed.

Lemma order_by_perm (l : list A) : Permutation (Sql.order_by le l) l.
Proof.
  induction l as [| x l IH]; simpl; [reflexivity |].
  fold (Sql.order_by le l). rewrite insert_by_perm. now constructor.
Qed.

Hypothesis le_total : forall a b, le a b = true \/ le b a = true.

Lemma insert_by_hdrel (x y : A) (l : list A) :
  holds le y x -> HdRel (holds le) y l -> HdRel (holds le) y (Sql.insert_by le x l).
Proof.
  intros Hyx Hl. destruct l as [| z l]; simpl.
  - now constructor.
  - destruct (le x z); constructor; auto. now inversion Hl.
Qed.

Lemma insert_by_sorted (x : A) (l : list A) :
  Sorted (holds le) l -> Sorted (holds le) (Sql.insert_by le x l).
Proof.
  induction 1 as [| y l Hs IH Hhd]; simpl.
  - repeat constructor.
  - destruct (le x y) eqn:E.
    + constructor; [now constructor | now constructor].
    + constructor; [exact IH |].
      apply insert_by_hdrel; [| exact Hhd].
      destruct (le_total x y) as [H | H]; [congruence | exact H].
Qed.

Lemma order_by_sorted (l : list A) : Sorted (holds le) (Sql.order_by le l).
Proof.
  induction l as [| x l IH]; simpl; [constructor |].
  now apply insert_by_sorted.
Qed.

Hypothesis le_trans : forall a b c, le a b = true -> le b c = true -> le a c = true.

Lemma order_by_strongly_sorted (l : list A) :
  StronglySorted (holds le) (Sql.order_by le l).
Proof.
  apply Sorted_StronglySorted; [| apply order_by_sorted].
  intros a b c. apply le_trans.
Qed.

End OrderBy.

Section ThenBy.

Context {A : Type} (le1 le2 : A -> A -> bool).
Hypothesis total1 : forall a b, le1 a b = true \/ le1 b a = true.
Hypothesis total2 : forall a b, le2 a b = true \/ le2 b a = true.
Hypothesis trans1 : forall a b c, le1 a b = true -> le1 b c = true -> le1 a c = true.
Hypothesis trans2 : forall a b c, le2 a b = true -> le2 b c = true -> le2 a c = true.

Lemma then_by_spec (a b : A) :
  Sql.then_by le1 le2 a b = true <->
  le1 a b = true /\ (le1 b a = true -> le2 a b = true).
Proof.
  unfold Sql.then_by. destruct (le1 a b), (le1 b a); intuition congruence.
Qed.

Lemma then_by_total (a b : A) :
  Sql.then_by le1 le2 a b = true \/ Sql.then_by le1 le2 b a = true.
Proof.
  rewrite !then_by_spec.
  destruct (le1 a b) eqn:E1, (le1 b a) eqn:E2.
  - destruct (total2 a b) as [H | H]; [left | right]; split; auto.
  - left. split; [reflexivity | discriminate].
  - right. split; [reflexivity | discriminate].
  - destruct (total1 a b); congruence.
Qed.

Lemma then_by_trans (a b c : A) :
  Sql.then_by le1 le2 a b = true -> Sql.then_by le1 le2 b c = true ->
  Sql.then_by le1 le2 a c = true.
Proof.
  rewrite !then_by_spec. intros [Hab Hab'] [Hbc Hbc']. split.
  - eauto.
  - intros Hca. apply trans2 with b.
    + apply Hab'. eauto.
    + apply Hbc'. eauto.
Qed.

End ThenBy.

Lemma StronglySorted_impl {A : Type} (R S : A -> A -> Prop) (l : list A) :
  (forall a b, R a b -> S a b) -> StronglySorted R l -> StronglySorted S l.
Proof.
  intros H. induction 1 as [| x l Hs IH Hall]; constructor; auto.
  eapply Forall_impl; [| exact Hall]. auto.
Qed.

Lemma StronglySorted_map {A B : Type} (f : A -> B) (S : B -> B -> Prop) (l : list A) :
  StronglySorted (fun a b => S (f a) (f b)) l -> StronglySorted S (map f l).
Proof.
  induction 1 as [| x l Hs IH Hall]; simpl; constructor; auto.
  rewrite Forall_map. exact Hall.
Qed.

Lemma Permutation_nil_filter {A : Type} (f : A -> bool) (l : list A) :
  (forall x, In x l -> f x = false) -> filter f l = [].
Proof.
  induction l as [| x l IH]; simpl; intros H; [reflexivity |].
  rewrite (H x (or_introl eq_refl)). apply IH. intros y Hy. apply H. now right.
Qed.

(** ** Repository calls against a healthy store *)

Lemma repo_call_healthy {A : Type} (c : RepoCall) (q : Database -> A) (w : World) :
  healthy w ->
  (_ <- invoked c ;; run_query q) w = (Returned (q (db w)), logged w c).
Proof.
  intros H. unfold bind, invoked. unfold run_query. simpl. rewrite H. reflexivity.
Qed.

Lemma logged_healthy (w : World) (c : RepoCall) : healthy w -> healthy (logged w c).
Proof. auto. Qed.

Lemma play_order_spec (a b : PlayRow) :
  play_order a b = true <-> period_then_index a b.
Proof.
  unfold play_order, period_then_index. rewrite then_by_spec.
  rewrite !Z.leb_le. lia.
Qed.

Lemma select_by_game_ordered (game_id : Z) (d : Database) :
  StronglySorted period_then_index (plays_repo.select_by_game game_id d).
Proof.
  unfold plays_repo.select_by_game.
  apply StronglySorted_impl with (R := holds play_order).
  - intros a b. apply play_order_spec.
  - apply order_by_strongly_sorted.
    + intros a b. apply then_by_total; intros; rewrite !Z.leb_le; lia.
    + intros a b c. apply then_by_trans; intros ? ? ?; rewrite !Z.leb_le; lia.
Qed.

Lemma select_by_game_complete (game_id : Z) (d : Database) :
  Permutation (plays_repo.select_by_game game_id d)
    (filter (fun p => playGameId p =? game_id) (plays_table d)).
Proof. apply order_by_perm. Qed.

(** ** C3: game detail *)

(** C3.  For an authenticated request for game [game_id] against a healthy
    store, the game is looked up first.  If there is none, the answer is 404
    and the only repository call is that lookup: the plays are not fetched.
    If there is one, the answer is 200 with the game and all plays of that
    game, ordered by period and then by index; with no plays recorded the
    answer is still 200, with an empty play list. *)
Theorem C3_game_detail_resolves_game_then_plays :
  forall (w : World) (r : Request) (secret : string) (game_id : Z),
    assoc "API_BEARER_TOKEN" (environ w) = Some secret ->
    authorization r = Some secret ->
    route r = ApiGame (IntSegment game_id) ->
    healthy w ->
    match games_repo.select_by_id game_id (db w) with
    | None =>
        response_of r w =
          mkResponse 404 []
            (JObj [("detail", JStr ("Game " +++ Text.of_Z game_id +++ " not found"))]) /\
        store_calls r w = [GamesGetById game_id]
    | Some g =>
        let ps := plays_repo.select_by_game game_id (db w) in
        response_of r w =
          mkResponse 200 [] (Encode.of_game_detail (mkGameDetail g ps)) /\
        store_calls r w = [GamesGetById game_id; PlaysGetByGame game_id] /\
        StronglySorted period_then_index ps /\
        Permutation ps (filter (fun p => playGameId p =? game_id) (plays_table (db w))) /\
        ((forall p, In p (plays_table (db w)) -> playGameId p <> game_id) ->
         response_of r w =
           mkResponse 200 [] (Encode.of_game_detail (mkGameDetail g [])))
    end.
Proof.
  intros w r secret game_id Hs Ha Hr Hh.
  assert (Hnh : route r <> Health) by (rewrite Hr; discriminate).
  assert (E : api_app.endpoint r w =
              match games_repo.select_by_id game_id (db w) with
              | None =>
                  (Raised (HTTPException 404
                             ("Game " +++ Text.of_Z game_id +++ " not found") []),
                   logged w (GamesGetById game_id))
              | Some g =>
                  (Returned (Encode.of_game_detail
                               (mkGameDetail g (plays_repo.select_by_game game_id (db w)))),
                   logged (logged w (GamesGetById game_id)) (PlaysGetByGame game_id))
              end).
  { rewrite (endpoint_authenticated _ _ _ Hnh Hs Ha), Hr.
    unfold api_app.run_route, api_app.with_int, router.get_game_detail.
    unfold bind at 1. unfold try_except. unfold bind at 1.
    unfold games_repo.get_game_by_id. rewrite (repo_call_healthy _ _ _ Hh).
    destruct (games_repo.select_by_id game_id (db w)) as [g |]; [| reflexivity].
    unfold bind at 1. unfold plays_repo.get_plays_by_game.
    rewrite (repo_call_healthy _ _ _ (logged_healthy _ _ Hh)).
    unfold router.to_game_response. unfold router.to_play_response.
    rewrite map_id. reflexivity. }
  unfold response_of, store_calls, api_app.app. rewrite E.
  destruct (games_repo.select_by_id game_id (db w)) as [g |]; simpl.
  - repeat split.
    + rewrite <- app_assoc. apply skipn_length_app.
    + apply select_by_game_ordered.
    + apply select_by_game_complete.
    + intros Hnone. unfold plays_repo.select_by_game.
      rewrite Permutation_nil_filter; [reflexivity |].
      intros p Hp. apply Z.eqb_neq. now apply Hnone.
  - split; [reflexivity | apply skipn_length_app].
Qed.

Lemma C3_witness :
  (response_of (Sample.get (ApiGame (IntSegment 404)) (Some "s3cret")) Sample.world =
     mkResponse 404 [] (JObj [("detail", JStr "Game 404 not found")]) /\
   store_calls (Sample.get (ApiGame (IntSegment 404)) (Some "s3cret")) Sample.world =
     [GamesGetById 404]) /\
  (status (response_of (Sample.get (ApiGame (IntSegment 2023020701)) (Some "s3cret"))
             Sample.world) = 200 /\
   map playId (plays_repo.select_by_game 2023020701 Sample.database) = [12; 14; 13; 11]) /\
  response_of (Sample.get (ApiGame (IntSegment 2023020702)) (Some "s3cret")) Sample.world =
    mkResponse 200 [] (Encode.of_game_detail (mkGameDetail Sample.late_game [])).
Proof.
  split; [| split].
  - exact (C3_game_detail_resolves_game_then_plays Sample.world
             (Sample.get (ApiGame (IntSegment 404)) (Some "s3cret")) "s3cret" 404
             eq_refl eq_refl eq_refl eq_refl).
  - destruct (C3_game_detail_resolves_game_then_plays Sample.world
                (Sample.get (ApiGame (IntSegment 2023020701)) (Some "s3cret")) "s3cret"
                2023020701 eq_refl eq_refl eq_refl eq_refl) as (Hresp & _).
    split; [rewrite Hresp; reflexivity | reflexivity].
  - destruct (C3_game_detail_resolves_game_then_plays Sample.world
                (Sample.get (ApiGame (IntSegment 2023020702)) (Some "s3cret")) "s3cret"
                2023020702 eq_refl eq_refl eq_refl eq_refl) as (_ & _ & _ & _ & Hempty).
    apply Hempty. intros p Hp.
    repeat (destruct Hp as [<- | Hp]; [discriminate |]). destruct Hp.
Defined.

(** ** C7: the players of a team *)

Lemma string_leb_trans (a b c : string) :
  String.leb a b = true -> String.leb b c = true -> String.leb a c = true.
Proof.
  unfold String.leb. revert b c.
  induction a as [| x a IH]; intros [| y b] [| z c]; simpl; try congruence.
  unfold Ascii.compare.
  destruct (N.compare_spec (N_of_ascii x) (N_of_ascii y)) as [Exy | Lxy | Gxy];
    try congruence;
    destruct (N.compare_spec (N_of_ascii y) (N_of_ascii z)) as [Eyz | Lyz | Gyz];
    try congruence; intros Hab Hbc.
  - rewrite Exy, Eyz, N.compare_refl. eauto.
  - rewrite Exy. apply N.compare_lt_iff in Lyz. now rewrite Lyz.
  - rewrite <- Eyz. apply N.compare_lt_iff in Lxy. now rewrite Lxy.
  - assert (L : (N_of_ascii x < N_of_ascii z)%N) by (eapply N.lt_trans; eauto).
    apply N.compare_lt_iff in L. now rewrite L.
Qed.

Lemma string_leb_total_order : total_order String.leb.
Proof. split; [exact String.leb_total | exact string_leb_trans]. Qed.

Section PlayersOfTeam.

Variable d : Database.
Hypothesis collation_total : total_order (collation d).

Lemma player_order_spec (a b : PlayerRow) :
  player_order d a b = true <->
  last_then_first (collation d) (router.to_player_response a) (router.to_player_response b).
Proof. unfold player_order, last_then_first. rewrite then_by_spec. reflexivity. Qed.

Lemma select_by_team_ordered (team_id : Z) :
  StronglySorted (last_then_first (collation d))
    (map router.to_player_response (players_repo.select_by_team team_id d)).
Proof.
  destruct collation_total as [Htot Htr].
  apply StronglySorted_map.
  apply StronglySorted_impl with (R := holds (player_order d)).
  - intros a b. apply player_order_spec.
  - unfold players_repo.select_by_team. apply order_by_strongly_sorted.
    + intros a b. apply then_by_total; intros; apply Htot.
    + intros a b c. apply then_by_trans; intros ? ? ?; apply Htr.
Qed.

End PlayersOfTeam.

Lemma select_by_team_complete (team_id : Z) (d : Database) :
  Permutation (players_repo.select_by_team team_id d)
    (filter (fun r => Sql.eq_nullable (row_playerTeamId r) team_id) (players_table d)).
Proof. apply order_by_perm. Qed.

Lemma players_route_healthy
  (r : Request) (w : World) (secret : string) (team_id : Z) :
  assoc "API_BEARER_TOKEN" (environ w) = Some secret ->
  authorization r = Some secret ->
  route r = ApiTeamPlayers (IntSegment team_id) ->
  healthy w ->
  api_app.endpoint r w =
    (Returned (JArr (map Encode.of_player
                       (map router.to_player_response
                          (players_repo.select_by_team team_id (db w))))),
     logged w (PlayersGetByTeam team_id)).
Proof.
  intros Hs Ha Hr Hh.
  assert (Hnh : route r <> Health) by (rewrite Hr; discriminate).
  rewrite (endpoint_authenticated _ _ _ Hnh Hs Ha), Hr.
  unfold api_app.run_route, api_app.with_int, router.get_players_by_team.
  unfold bind at 1. unfold try_except. unfold bind at 1.
  unfold players_repo.get_players_by_team. rewrite (repo_call_healthy _ _ _ Hh).
  destruct (players_repo.select_by_team team_id (db w)); reflexivity.
Qed.

(** C7.  For an authenticated request for the players of team [team_id]
    against a healthy store whose collation is a total order, the answer is
    200 with exactly the players of that team, ordered by last name and then
    first name, ascending; when no player row carries that team id (the team
    has no players, or does not exist) the answer is 200 with an empty list. *)
Theorem C7_players_by_team_ordered_or_empty :
  forall (w : World) (r : Request) (secret : string) (team_id : Z),
    assoc "API_BEARER_TOKEN" (environ w) = Some secret ->
    authorization r = Some secret ->
    route r = ApiTeamPlayers (IntSegment team_id) ->
    healthy w ->
    total_order (collation (db w)) ->
    let rows := players_repo.select_by_team team_id (db w) in
    players_repo.get_players_by_team team_id w =
      (Returned rows, logged w (PlayersGetByTeam team_id)) /\
    response_of r w =
      mkResponse 200 [] (JArr (map Encode.of_player (map router.to_player_response rows))) /\
    StronglySorted (last_then_first (collation (db w)))
      (map router.to_player_response rows) /\
    Permutation rows
      (filter (fun p => Sql.eq_nullable (row_playerTeamId p) team_id)
         (players_table (db w))) /\
    ((forall p, In p (players_table (db w)) -> row_playerTeamId p <> Some team_id) ->
     response_of r w = mkResponse 200 [] (JArr [])).
Proof.
  intros w r secret team_id Hs Ha Hr Hh Hord rows.
  pose proof (players_route_healthy r w secret team_id Hs Ha Hr Hh) as E.
  assert (Hresp : response_of r w =
            mkResponse 200 []
              (JArr (map Encode.of_player (map router.to_player_response rows)))).
  { unfold response_of, api_app.app. rewrite E. reflexivity. }
  split; [| split; [| split; [| split]]].
  - unfold players_repo.get_players_by_team. apply (repo_call_healthy _ _ _ Hh).
  - exact Hresp.
  - apply select_by_team_ordered. exact Hord.
  - apply select_by_team_complete.
  - intros Hnone. rewrite Hresp. unfold rows, players_repo.select_by_team.
    rewrite Permutation_nil_filter; [reflexivity |].
    intros p Hp. specialize (Hnone p Hp).
    destruct (row_playerTeamId p) as [t |]; simpl; [| reflexivity].
    apply Z.eqb_neq. congruence.
Qed.

Lemma C7_witness :
  (response_of (Sample.get (ApiTeamPlayers (IntSegment 6)) (Some "s3cret")) Sample.world =
     mkResponse 200 []
       (JArr (map Encode.of_player
                (map router.to_player_response
                   (players_repo.select_by_team 6 Sample.database)))) /\
   map row_playerId (players_repo.select_by_team 6 Sample.database) = [1; 4; 2]) /\
  response_of (Sample.get (ApiTeamPlayers (IntSegment 99)) (Some "s3cret")) Sample.world =
    mkResponse 200 [] (JArr []).
Proof.
  split.
  - destruct (C7_players_by_team_ordered_or_empty Sample.world
                (Sample.get (ApiTeamPlayers (IntSegment 6)) (Some "s3cret")) "s3cret" 6
                eq_refl eq_refl eq_refl eq_refl string_leb_total_order)
      as (_ & Hresp & _).
    split; [exact Hresp | reflexivity].
  - destruct (C7_players_by_team_ordered_or_empty Sample.world
                (Sample.get (ApiTeamPlayers (IntSegment 99)) (Some "s3cret")) "s3cret" 99
                eq_refl eq_refl eq_refl eq_refl string_leb_total_order)
      as (_ & _ & _ & _ & Hempty).
    apply Hempty. intros p Hp.
    repeat (destruct Hp as [<- | Hp]; [discriminate |]). destruct Hp.
Defined.

(** ** C10: the active flag of a player *)

Section RelatedRows.

Context {A : Type} (R : A -> A -> Prop).

Lemma filter_related (f g : A -> bool) (l1 l2 : list A) :
  (forall a b, R a b -> f a = g b) ->
  Forall2 R l1 l2 -> Forall2 R (filter f l1) (filter g l2).
Proof.
  intros Hfg. induction 1 as [| a b l1 l2 Hab Hl IH]; simpl; [constructor |].
  rewrite (Hfg a b Hab). destruct (g b); [constructor |]; assumption.
Qed.

Lemma insert_by_related (le1 le2 : A -> A -> bool) (x y : A) (l1 l2 : list A) :
  (forall a b a' b', R a b -> R a' b' -> le1 a a' = le2 b b') ->
  R x y -> Forall2 R l1 l2 ->
  Forall2 R (Sql.insert_by le1 x l1) (Sql.insert_by le2 y l2).
Proof.
  intros Hle Hxy. induction 1 as [| a b l1 l2 Hab Hl IH]; simpl.
  - repeat constructor. exact Hxy.
  - rewrite (Hle x y a b Hxy Hab). destruct (le2 y b); repeat constructor; auto.
Qed.

Lemma order_by_related (le1 le2 : A -> A -> bool) (l1 l2 : list A) :
  (forall a b a' b', R a b -> R a' b' -> le1 a a' = le2 b b') ->
  Forall2 R l1 l2 ->
  Forall2 R (Sql.order_by le1 l1) (Sql.order_by le2 l2).
Proof.
  intros Hle. induction 1 as [| a b l1 l2 Hab Hl IH]; simpl; [constructor |].
  apply insert_by_related; assumption.
Qed.

Lemma map_related {B : Type} (f : A -> B) (l1 l2 : list A) :
  (forall a b, R a b -> f a = f b) ->
  Forall2 R l1 l2 -> map f l1 = map f l2.
Proof.
  intros Hf. induction 1 as [| a b l1 l2 Hab Hl IH]; simpl; [reflexivity |].
  now rewrite (Hf a b Hab), IH.
Qed.

End RelatedRows.

Lemma active_flag_dropped (a b : PlayerRow) :
  differ_only_in_active a b <-> router.to_player_response a = router.to_player_response b.
Proof.
  unfold differ_only_in_active, router.to_player_response. split.
  - intros (-> & -> & -> & -> & -> & -> & -> & -> & ->). reflexivity.
  - intros H. injection H as -> -> -> -> -> -> -> -> ->. repeat split.
Qed.

Section ActiveFlag.

Variable w : World.
Variable rows' : list PlayerRow.
Hypothesis same_but_active : Forall2 differ_only_in_active (players_table (db w)) rows'.

Lemma select_by_team_active (team_id : Z) :
  map router.to_player_response (players_repo.select_by_team team_id (db w)) =
  map router.to_player_response (players_repo.select_by_team team_id (db (set_players w rows'))).
Proof.
  apply map_related with (R := differ_only_in_active).
  - intros a b. apply active_flag_dropped.
  - unfold players_repo.select_by_team. apply order_by_related.
    + intros a b a' b' Hab Hab'. unfold player_order, Sql.then_by. simpl.
      destruct Hab as (_ & _ & -> & -> & _), Hab' as (_ & _ & -> & -> & _).
      reflexivity.
    + apply filter_related; [| exact same_but_active].
      intros a b (_ & -> & _). reflexivity.
Qed.

Lemma select_by_id_active (player_id : Z) :
  option_map router.to_player_response (players_repo.select_by_id player_id (db w)) =
  option_map router.to_player_response (players_repo.select_by_id player_id (db (set_players w rows'))).
Proof.
  unfold players_repo.select_by_id.
  assert (H : Forall2 differ_only_in_active
                (filter (fun r => row_playerId r =? player_id) (players_table (db w)))
                (filter (fun r => row_playerId r =? player_id) (players_table (db (set_players w rows'))))).
  { apply filter_related; [| exact same_but_active].
    intros a b (-> & _). reflexivity. }
  destruct H as [| a b l1 l2 Hab _]; simpl; [reflexivity |].
  f_equal. now apply active_flag_dropped.
Qed.

Lemma players_by_team_handler (team_id : Z) (token : string) (v : World) :
  fst (router.get_players_by_team team_id token v) =
    match faults v with
    | true :: _ =>
        Raised (HTTPException 500
                  ("Failed to fetch players for team " +++ Text.of_Z team_id) [])
    | _ => Returned (map router.to_player_response
                       (players_repo.select_by_team team_id (db v)))
    end.
Proof.
  unfold router.get_players_by_team, try_except, bind,
    players_repo.get_players_by_team, bind, invoked, run_query. simpl.
  destruct (faults v) as [| [|] rest]; simpl; try reflexivity;
    destruct (players_repo.select_by_team team_id (db v)); reflexivity.
Qed.

Lemma player_by_id_handler (player_id : Z) (token : string) (v : World) :
  fst (router.get_player_by_id player_id token v) =
    match faults v with
    | true :: _ =>
        Raised (HTTPException 500
                  ("Failed to fetch player " +++ Text.of_Z player_id) [])
    | _ =>
        match option_map router.to_player_response
                (players_repo.select_by_id player_id (db v)) with
        | Some p => Returned p
        | None =>
            Raised (HTTPException 404
                      ("Player " +++ Text.of_Z player_id +++ " not found") [])
        end
    end.
Proof.
  unfold router.get_player_by_id, try_except, bind,
    players_repo.get_player_by_id, bind, invoked, run_query. simpl.
  destruct (faults v) as [| [|] rest]; simpl; try reflexivity;
    destruct (players_repo.select_by_id player_id (db v)); reflexivity.
Qed.

Lemma player_routes_active (rt : Route) (token : string) :
  (exists p, rt = ApiPlayer p) \/ (exists p, rt = ApiTeamPlayers p) ->
  fst (api_app.run_route rt token w) = fst (api_app.run_route rt token (set_players w rows')).
Proof.
  intros [[p ->] | [p ->]]; destruct p as [n | raw];
    cbn [api_app.run_route api_app.with_int]; try reflexivity.
  - unfold bind.
    pose proof (player_by_id_handler n token w) as H1.
    pose proof (player_by_id_handler n token (set_players w rows')) as H2.
    destruct (router.get_player_by_id n token w) as [o1 w1].
    destruct (router.get_player_by_id n token (set_players w rows')) as [o2 w2].
    cbn [fst] in H1, H2. subst o1 o2. change (faults (set_players w rows')) with (faults w).
    rewrite <- (select_by_id_active n).
    destruct (faults w) as [| [|] rest]; try reflexivity;
      destruct (option_map _ _); reflexivity.
  - unfold bind.
    pose proof (players_by_team_handler n token w) as H1.
    pose proof (players_by_team_handler n token (set_players w rows')) as H2.
    destruct (router.get_players_by_team n token w) as [o1 w1].
    destruct (router.get_players_by_team n token (set_players w rows')) as [o2 w2].
    cbn [fst] in H1, H2. subst o1 o2. change (faults (set_players w rows')) with (faults w).
    rewrite <- (select_by_team_active n).
    destruct (faults w) as [| [|] rest]; reflexivity.
Qed.

End ActiveFlag.

(** C10.  Let the player rows of two stores agree, row by row, on every
    column but [playerIsActive].  Then a request for a player or for the
    players of a team gets the same response from both: the repository
    selects the flag, the response model has no field for it. *)
Theorem C10_active_flag_never_reaches_caller :
  forall (w : World) (rows' : list PlayerRow) (r : Request),
    Forall2 differ_only_in_active (players_table (db w)) rows' ->
    (exists p, route r = ApiPlayer p) \/ (exists p, route r = ApiTeamPlayers p) ->
    response_of r w = response_of r (set_players w rows').
Proof.
  intros w rows' r Hrows Hroute.
  assert (Hnh : route r <> Health)
    by (destruct Hroute as [[p E] | [p E]]; rewrite E; discriminate).
  unfold response_of, api_app.app.
  assert (E : fst (api_app.endpoint r w) = fst (api_app.endpoint r (set_players w rows'))).
  { rewrite !(endpoint_decided _ _ Hnh).
    change (environ (set_players w rows')) with (environ w).
    change (bearer_auto_error (set_players w rows')) with (bearer_auto_error w).
    destruct (authorization r) as [c |]; [| reflexivity].
    destruct (assoc "API_BEARER_TOKEN" (environ w)) as [s |]; [| reflexivity].
    destruct (String.eqb c s); [| reflexivity].
    apply player_routes_active; assumption. }
  destruct (api_app.endpoint r w) as [o1 w1].
  destruct (api_app.endpoint r (set_players w rows')) as [o2 w2].
  simpl in E. subst o2. reflexivity.
Qed.

Lemma C10_witness :
  response_of (Sample.get (ApiPlayer (IntSegment 2)) (Some "s3cret")) Sample.world =
  response_of (Sample.get (ApiPlayer (IntSegment 2)) (Some "s3cret"))
    (set_players Sample.world
       [Sample.player 1 (Some 6) "Zed" "Adams" false;
        Sample.player 2 (Some 6) "Amy" "Brown" true;
        Sample.player 3 None "Free" "Agent" true;
        Sample.player 4 (Some 6) "Al" "Brown" false]).
Proof.
  apply (C10_active_flag_never_reaches_caller Sample.world).
  - repeat constructor.
  - left. exists (IntSegment 2). reflexivity.
Defined.

(** ** C4: the games of a local calendar day *)

Lemma parse_iso_date_valid (date : string) (y m d : Z) :
  games_repo.parse_iso_date date = Some (y, m, d) ->
  Calendar.valid_date y m d = true.
Proof.
  unfold games_repo.parse_iso_date. intros H.
  repeat match type of H with
         | match ?x with _ => _ end = _ => destruct x eqn:?; try discriminate H
         end.
  injection H as <- <- <-. assumption.
Qed.

Lemma in_window_spec (win : Z * Z) (g : GameRow) :
  games_repo.in_window win g = true <->
  fst win <= gameDateTimeUtc g < snd win.
Proof.
  unfold games_repo.in_window. rewrite andb_true_iff, Z.leb_le, Z.ltb_lt. reflexivity.
Qed.

(** In an ascending table, [first_reaching] is the first instant, from
    [since] on, at which the wall clock has reached [l]. *)
Lemma first_reaching_spec (table : list (Z * Z)) :
  forall (off : Z) (since : option Z) (l : Z),
    Tz.ascending_from since table = true ->
    (forall s, since = Some s -> s <= games_repo.first_reaching off since table l) /\
    l <= games_repo.first_reaching off since table l +
         Tz.offset_in off table (games_repo.first_reaching off since table l) /\
    (forall v, (forall s, since = Some s -> s <= v) ->
               v < games_repo.first_reaching off since table l ->
               v + Tz.offset_in off table v < l).
Proof.
  induction table as [| [at_ off'] rest IH]; intros off since l Hasc.
  - simpl. destruct since as [s |].
    + repeat split.
      * intros s' E. injection E as <-. lia.
      * lia.
      * intros v Hv Hlt. specialize (Hv s eq_refl). lia.
    + repeat split.
      * discriminate.
      * lia.
      * intros v _ Hlt. lia.
  - cbn [Tz.ascending_from] in Hasc. apply andb_prop in Hasc. destruct Hasc as [Hs Hrest].
    assert (Hsince : forall s, since = Some s -> s < at_).
    { intros s ->. now apply Z.ltb_lt in Hs. }
    cbn [games_repo.first_reaching Tz.offset_in].
    destruct (Z.ltb_spec (l - off) at_) as [Hbefore | Hafter].
    + destruct since as [s |].
      * specialize (Hsince s eq_refl).
        assert (Hu : Z.max s (l - off) < at_) by lia.
        repeat split.
        -- intros s' E. injection E as <-. lia.
        -- destruct (Z.leb_spec at_ (Z.max s (l - off))); lia.
        -- intros v Hv Hlt. specialize (Hv s eq_refl).
           destruct (Z.leb_spec at_ v); lia.
      * repeat split.
        -- discriminate.
        -- destruct (Z.leb_spec at_ (l - off)); lia.
        -- intros v _ Hlt. destruct (Z.leb_spec at_ v); lia.
    + destruct (IH off' (Some at_) l Hrest) as (Hge & Hreach & Hfirst).
      specialize (Hge at_ eq_refl).
      repeat split.
      * intros s E. specialize (Hsince s E). lia.
      * destruct (Z.leb_spec at_ (games_repo.first_reaching off' (Some at_) rest l));
          lia.
      * intros v Hv Hlt. destruct (Z.leb_spec at_ v) as [Hin | Hout].
        -- apply Hfirst; [| exact Hlt]. intros s' E. injection E as <-. exact Hin.
        -- lia.
Qed.

(** [local_to_utc z l] is the first instant at which the wall clock of the
    zone reads [l] or later. *)
Lemma local_to_utc_first (z : tzinfo) (l : Z) :
  Tz.ascending z = true ->
  l <= Tz.to_local z (games_repo.local_to_utc z l) /\
  forall v, v < games_repo.local_to_utc z l -> Tz.to_local z v < l.
Proof.
  intros Hasc. unfold Tz.to_local. destruct z as [off | [t0 off0] later]; simpl.
  - split; [lia | intros v Hv; lia].
  - destruct (first_reaching_spec later off0 None l Hasc) as (_ & Hreach & Hfirst).
    split; [lia |]. intros v Hv. apply Hfirst; [discriminate | exact Hv].
Qed.

(** C4.  For a valid ISO date and a zone the installation knows (its
    transitions in ascending order), against a healthy store,
    [get_games_by_date] returns exactly the games whose UTC start lies in
    [lo, hi).  [lo] is the first instant at which the zone's wall clock reads
    [date 00:00:00] or later, and [hi] the first instant at which it reads
    [date+1 00:00:00] or later, 24 wall-clock hours on; when the zone keeps
    one offset from [lo] up to [hi], every game returned starts on that
    calendar date of the zone, and when the wall clock reads the two
    midnights exactly and under one offset, the window is 24 hours of UTC.
    For 2024-01-15 the window is [2024-01-15T05:00:00Z, 2024-01-16T05:00:00Z)
    in America/New_York and [2024-01-15T00:00:00Z, 2024-01-16T00:00:00Z) in
    UTC. *)
Theorem C4_games_of_local_day_window :
  forall (w : World) (date timezone : string) (z : tzinfo) (y m d : Z),
    assoc timezone (zoneinfo w) = Some z ->
    Tz.ascending z = true ->
    games_repo.parse_iso_date date = Some (y, m, d) ->
    healthy w ->
    let start := Calendar.midnight y m d in
    let stop := let '(y', m', d') := Calendar.next_day (y, m, d) in
                Calendar.midnight y' m' d' in
    let lo := games_repo.local_to_utc z start in
    let hi := games_repo.local_to_utc z stop in
    stop = start + 24 * 3600 /\
    (start <= Tz.to_local z lo /\ forall u, u < lo -> Tz.to_local z u < start) /\
    (stop <= Tz.to_local z hi /\ forall u, u < hi -> Tz.to_local z u < stop) /\
    (exists rows,
        games_repo.get_games_by_date date timezone w =
          (Returned rows, logged w (GamesGetByDate date timezone)) /\
        rows = filter (fun g => (lo <=? gameDateTimeUtc g) && (gameDateTimeUtc g <? hi))
                 (games_table (db w)) /\
        (forall g, In g rows <->
                   In g (games_table (db w)) /\ lo <= gameDateTimeUtc g < hi) /\
        ((forall u, lo <= u < hi -> Tz.offset_at_utc z u = Tz.offset_at_utc z lo) ->
         forall g, In g rows -> local_date z (gameDateTimeUtc g) = (y, m, d))) /\
    (Tz.to_local z lo = start -> Tz.to_local z hi = stop ->
     Tz.offset_at_utc z lo = Tz.offset_at_utc z hi -> hi - lo = 24 * 3600) /\
    games_repo.utc_window Sample.new_york (2024, 1, 15) = (1705294800, 1705381200) /\
    games_repo.utc_window Sample.utc (2024, 1, 15) = (1705276800, 1705363200).
Proof.
  intros w date timezone z y m d Hz Hasc Hp Hh start stop lo hi.
  pose proof (parse_iso_date_valid _ _ _ _ Hp) as Hvalid.
  assert (Hstop : stop = start + 24 * 3600).
  { unfold stop, start. rewrite (next_midnight y m d Hvalid). reflexivity. }
  destruct (local_to_utc_first z start Hasc) as [Hlo Hlo_first]. fold lo in Hlo, Hlo_first.
  destruct (local_to_utc_first z stop Hasc) as [Hhi Hhi_first]. fold hi in Hhi, Hhi_first.
  assert (Hwin : games_repo.utc_window z (y, m, d) = (lo, hi)).
  { unfold games_repo.utc_window, lo, hi. fold start. rewrite Hstop. reflexivity. }
  assert (Hmem : forall g,
             In g (games_repo.select_by_window (games_repo.utc_window z (y, m, d)) (db w)) <->
             In g (games_table (db w)) /\ lo <= gameDateTimeUtc g < hi).
  { intros g. unfold games_repo.select_by_window. rewrite filter_In, in_window_spec.
    rewrite Hwin. reflexivity. }
  split; [exact Hstop |].
  split; [split; assumption |].
  split; [split; assumption |].
  split; [| split; [| split]].
  - exists (games_repo.select_by_window (games_repo.utc_window z (y, m, d)) (db w)).
    split; [| split; [| split]].
    + unfold games_repo.get_games_by_date, bind, invoked, get_world. simpl.
      rewrite Hz, Hp. unfold run_query. simpl. rewrite Hh. reflexivity.
    + unfold games_repo.select_by_window. rewrite Hwin. reflexivity.
    + exact Hmem.
    + intros Hconst g Hg. apply Hmem in Hg. destruct Hg as [_ [Hge Hlt]].
      unfold local_date.
      assert (Hoff : Tz.offset_at_utc z (gameDateTimeUtc g) = Tz.offset_at_utc z lo)
        by (apply Hconst; lia).
      pose proof (Hhi_first (gameDateTimeUtc g) Hlt) as Hbelow.
      unfold Tz.to_local in Hlo, Hbelow. rewrite Hoff in *.
      replace (gameDateTimeUtc g + Tz.offset_at_utc z lo)
        with (Calendar.midnight y m d +
              (gameDateTimeUtc g + Tz.offset_at_utc z lo - start))
        by (unfold start; lia).
      apply date_of_seconds_on_day; [exact Hvalid |].
      unfold Calendar.seconds_per_day. lia.
  - intros Elo Ehi Eoff. unfold Tz.to_local in Elo, Ehi. lia.
  - reflexivity.
  - reflexivity.
Qed.

Lemma C4_witness :
  exists rows,
    games_repo.get_games_by_date "2024-01-15" "America/New_York" Sample.world =
      (Returned rows,
       logged Sample.world (GamesGetByDate "2024-01-15" "America/New_York")) /\
    rows = [Sample.evening_game; Sample.late_game] /\
    forall g, In g rows -> local_date Sample.new_york (gameDateTimeUtc g) = (2024, 1, 15).
Proof.
  destruct (C4_games_of_local_day_window Sample.world "2024-01-15" "America/New_York"
              Sample.new_york 2024 1 15 eq_refl eq_refl eq_refl eq_refl)
    as (_ & _ & _ & (rows & Hrun & Hrows & _ & Hday) & _).
  exists rows. split; [exact Hrun |]. split; [rewrite Hrows; reflexivity |].
  apply Hday. intros u Hu.
  assert (H1 : Tz.offset_at_utc Sample.new_york 1705294800 = -18000) by reflexivity.
  change (games_repo.local_to_utc Sample.new_york (Calendar.midnight 2024 1 15))
    with 1705294800 in *.
  change (games_repo.local_to_utc Sample.new_york
            (let '(y', m', d') := Calendar.next_day (2024, 1, 15) in
             Calendar.midnight y' m' d')) with 1705381200 in Hu.
  rewrite H1. unfold Sample.new_york, Tz.offset_at_utc, Tz.offset_in.
  destruct (Z.leb_spec 1710054000 u); [lia | reflexivity].
Defined.

(** A zone that changes its offset at local midnight (spring forward from
    00:00 to 01:00 at 2024-03-10T05:00:00Z): the window of 2024-03-10 starts
    at the transition. *)
Example window_starts_at_midnight_transition :
  games_repo.utc_window
    (DstTz (1699160400, -18000) [(1710046800, -14400); (1730610000, -18000)])
    (2024, 3, 10) = (1710046800, 1710129600).
Proof. reflexivity. Qed.

(** ** C8: repeating a request *)

Section Respect.

Lemma respects_ret {A : Type} (a : A) : Respects (ret a).
Proof. intros w1 w2 H. split; [reflexivity | exact H]. Qed.

Lemma respects_raise {A : Type} (e : Exn) : Respects (@raise A e).
Proof. intros w1 w2 H. split; [reflexivity | exact H]. Qed.

Lemma respects_bind {A B : Type} (m : M A) (k : A -> M B) :
  Respects m -> (forall a, Respects (k a)) -> Respects (bind m k).
Proof.
  intros Hm Hk w1 w2 H. unfold bind.
  destruct (Hm w1 w2 H) as [Ho Hw].
  destruct (m w1) as [o1 v1], (m w2) as [o2 v2]. simpl in Ho, Hw. subst o2.
  destruct o1 as [a | e]; [apply Hk; exact Hw | split; [reflexivity | exact Hw]].
Qed.

Lemma respects_try_except {A : Type} (m : M A) (h : Exn -> M A) :
  Respects m -> (forall e, Respects (h e)) -> Respects (try_except m h).
Proof.
  intros Hm Hh w1 w2 H. unfold try_except.
  destruct (Hm w1 w2 H) as [Ho Hw].
  destruct (m w1) as [o1 v1], (m w2) as [o2 v2]. simpl in Ho, Hw. subst o2.
  destruct o1 as [a | e]; [split; [reflexivity | exact Hw] | apply Hh; exact Hw].
Qed.

Lemma respects_invoked (c : RepoCall) : Respects (invoked c).
Proof. intros w1 w2 H. split; [reflexivity | exact H]. Qed.

Lemma respects_run_query {A : Type} (q : Database -> A) : Respects (run_query q).
Proof.
  intros w1 w2 (He & Hz & Hb & Hd & Hf). unfold run_query. rewrite Hd, Hf.
  destruct (faults w2) as [| [|] rest] eqn:E; simpl;
    (split; [reflexivity |]); unfold same_store; simpl; rewrite ?E; auto.
    all: repeat split; auto; rewrite Hf in *; congruence.
Qed.

Lemma respects_repo_call {A : Type} (c : RepoCall) (q : Database -> A) :
  Respects (_ <- invoked c ;; run_query q).
Proof.
  apply respects_bind; [apply respects_invoked | intros; apply respects_run_query].
Qed.

Lemma respects_internal_error {A : Type} (detail : string) :
  Respects (@router.internal_error A detail).
Proof. apply respects_raise. Qed.

Lemma respects_reraise_or {A : Type} (detail : string) (e : Exn) :
  Respects (match e with
            | HTTPException _ _ _ => raise e
            | _ => @router.internal_error A detail
            end).
Proof. destruct e; apply respects_raise. Qed.

Lemma respects_games_repo (date timezone : string) :
  Respects (games_repo.get_games_by_date date timezone).
Proof.
  unfold games_repo.get_games_by_date.
  apply respects_bind; [apply respects_invoked | intros _].
  intros w1 w2 H. unfold bind, get_world.
  destruct H as (He & Hz & Hb & Hd & Hf). rewrite Hz.
  assert (Hs : same_store w1 w2) by (repeat split; assumption).
  destruct (assoc timezone (zoneinfo w2)) as [z |]; [| now apply respects_raise].
  destruct (games_repo.parse_iso_date date) as [ymd |]; [| now apply respects_raise].
  now apply respects_run_query.
Qed.

End Respect.

(** The games handler, with the date it settles on. *)
Lemma get_games_by_date_settled
  (date : option string) (timezone token : string) (w : World) :
  router.get_games_by_date date timezone token w =
    match assoc timezone (zoneinfo w) with
    | None =>
        (Raised (HTTPException 400
                   ("Invalid timezone: " +++ timezone +++
                    ". Must be a valid IANA timezone string.") []), w)
    | Some z =>
        let date' := match date with
                     | Some d => d
                     | None => Calendar.format_date (local_date z (clock w))
                     end in
        try_except
          (games <- games_repo.get_games_by_date date' timezone ;;
           ret (map router.to_game_response games))
          (fun e =>
             match e with
             | HTTPException _ _ _ => raise e
             | _ => router.internal_error ("Failed to fetch games for date " +++ date')
             end) w
    end.
Proof.
  destruct (assoc timezone (zoneinfo w)) as [z |] eqn:Hz;
    [| now apply get_games_by_date_unknown_zone].
  unfold router.get_games_by_date, router.pytz_timezone, router.today_in.
  unfold bind, try_except, get_world, ret. rewrite Hz.
  unfold Tz.to_local, local_date.
  destruct date as [d |]; reflexivity.
Qed.

Lemma run_route_repeatable (r : Request) (token : string) (w1 w2 : World) :
  same_store w1 w2 ->
  same_today r w1 w2 ->
  fst (api_app.run_route (route r) token w1) = fst (api_app.run_route (route r) token w2).
Proof.
  intros Hs Ht. unfold same_today in Ht.
  destruct (route r) as [| | | date timezone | p | p | p];
    cbn [api_app.run_route api_app.with_int].
  - reflexivity.
  - apply respects_bind; [| intros; apply respects_ret | exact Hs].
    apply respects_try_except; [| intros; apply respects_internal_error].
    apply respects_bind; [apply respects_repo_call | intros; apply respects_ret].
  - apply respects_bind; [| intros; apply respects_ret | exact Hs].
    apply respects_try_except; [| intros; apply respects_internal_error].
    apply respects_bind; [apply respects_repo_call | intros; apply respects_ret].
  - destruct (api_app.validate_date date); [| reflexivity].
    fold (effective_timezone timezone).
    unfold bind.
    rewrite !get_games_by_date_settled.
    destruct Hs as (He & Hz & Hb & Hd & Hf).
    assert (Hs : same_store w1 w2) by (repeat split; assumption).
    rewrite <- Hz.
    destruct (assoc (effective_timezone timezone) (zoneinfo w1)) as [z |] eqn:Ez;
      [| reflexivity].
    assert (Hdate : match date with
                    | Some d => d
                    | None => Calendar.format_date (local_date z (clock w1))
                    end =
                    match date with
                    | Some d => d
                    | None => Calendar.format_date (local_date z (clock w2))
                    end).
    { destruct date as [d |]; [reflexivity |]. now rewrite (Ht z eq_refl). }
    cbv zeta. rewrite <- Hdate.
    match goal with
    | |- fst (let (_, _) := ?m w1 in _) = _ => assert (Hm : Respects m)
    end.
    { apply respects_try_except; [| intros; apply respects_reraise_or].
      apply respects_bind; [apply respects_games_repo | intros; apply respects_ret]. }
    destruct (Hm w1 w2 Hs) as [Ho _].
    match goal with
    | |- fst (let (_, _) := ?m w1 in _) = _ =>
        destruct (m w1) as [o1 v1], (m w2) as [o2 v2]
    end.
    simpl in Ho. subst o2. destruct o1; reflexivity.
  - destruct p as [n | raw]; [| reflexivity].
    apply respects_bind; [| intros; apply respects_ret | exact Hs].
    apply respects_try_except; [| intros; apply respects_internal_error].
    apply respects_bind; [apply respects_repo_call |].
    intros [| x l]; apply respects_ret.
  - destruct p as [n | raw]; [| reflexivity].
    apply respects_bind; [| intros; apply respects_ret | exact Hs].
    apply respects_try_except; [| intros; apply respects_reraise_or].
    apply respects_bind; [apply respects_repo_call |].
    intros [row |]; [apply respects_ret | apply respects_raise].
  - destruct p as [n | raw]; [| reflexivity].
    apply respects_bind; [| intros; apply respects_ret | exact Hs].
    apply respects_try_except; [| intros; apply respects_reraise_or].
    apply respects_bind; [apply respects_repo_call |].
    intros [g |]; [| apply respects_raise].
    apply respects_bind; [apply respects_repo_call | intros; apply respects_ret].
Qed.

Lemma C8_clock_dependent_counterexample :
  same_store Sample.world (set_clock Sample.world 1705406400) /\
  body_bytes (response_of (Sample.get (ApiGames None (Some "UTC")) (Some "s3cret"))
                Sample.world) <>
  body_bytes (response_of (Sample.get (ApiGames None (Some "UTC")) (Some "s3cret"))
                (set_clock Sample.world 1705406400)).
Proof.
  split.
  - repeat split.
  - vm_compute. discriminate.
Qed.

(** C8, amended.  On every route, a request repeated with the same
    parameters and credential against the same store (same configuration,
    tables and availability) gets the same response, byte for byte, provided
    that, for [/api/games] without a [date], both requests are served on the
    same calendar date of the zone the request names. *)
Theorem C8_repeated_get_same_bytes :
  forall (w1 w2 : World) (r : Request),
    same_store w1 w2 ->
    same_today r w1 w2 ->
    response_of r w1 = response_of r w2 /\
    body_bytes (response_of r w1) = body_bytes (response_of r w2).
Proof.
  intros w1 w2 r Hs Ht.
  assert (E : response_of r w1 = response_of r w2); [| split; [exact E | now rewrite E]].
  unfold response_of, api_app.app.
  assert (Ho : fst (api_app.endpoint r w1) = fst (api_app.endpoint r w2)).
  { destruct (route r) eqn:Hr.
    1: unfold api_app.endpoint; rewrite Hr; reflexivity.
    all: assert (Hnh : route r <> Health) by (rewrite Hr; discriminate).
    all: rewrite !(endpoint_decided _ _ Hnh).
    all: destruct Hs as (He & Hz & Hb & Hd & Hf); rewrite <- He, <- Hb.
    all: assert (Hs : same_store w1 w2) by (repeat split; assumption).
    all: destruct (authorization r) as [c |]; [| reflexivity].
    all: destruct (assoc "API_BEARER_TOKEN" (environ w1)) as [s |]; [| reflexivity].
    all: destruct (String.eqb c s); [| reflexivity].
    all: apply run_route_repeatable; assumption. }
  destruct (api_app.endpoint r w1) as [o1 v1], (api_app.endpoint r w2) as [o2 v2].
  simpl in Ho. subst o2. reflexivity.
Qed.

Lemma C8_witness :
  body_bytes (response_of (Sample.get (ApiGames None (Some "America/New_York"))
                             (Some "s3cret")) Sample.world) =
  body_bytes (response_of (Sample.get (ApiGames None (Some "America/New_York"))
                             (Some "s3cret")) (set_clock Sample.world 1705348800)).
Proof.
  apply (C8_repeated_get_same_bytes Sample.world (set_clock Sample.world 1705348800)
           (Sample.get (ApiGames None (Some "America/New_York")) (Some "s3cret"))).
  - repeat split.
  - intros z Hz. injection Hz as <-. reflexivity.
Defined.

(** * Further properties of the handlers and repositories *)

(** ** Team listings *)

Lemma teams_route_healthy (r : Request) (w : World) (secret : string) :
  assoc "API_BEARER_TOKEN" (environ w) = Some secret ->
  authorization r = Some secret ->
  healthy w ->
  (route r = ApiTeams ->
   api_app.endpoint r w =
     (Returned (JArr (map Encode.of_team
                        (Sql.order_by (team_order (db w)) (teams_table (db w))))),
      logged w TeamsGetAll)) /\
  (route r = ApiTeamsActive ->
   api_app.endpoint r w =
     (Returned (JArr (map Encode.of_team
                        (Sql.order_by (team_order (db w))
                           (filter teamIsActive (teams_table (db w)))))),
      logged w TeamsGetActive)).
Proof.
  intros Hs Ha Hh. split; intros Hr.
  all: assert (Hnh : route r <> Health) by (rewrite Hr; discriminate).
  all: rewrite (endpoint_authenticated _ _ _ Hnh Hs Ha), Hr.
  all: unfold api_app.run_route, router.get_all_teams, router.get_active_teams.
  all: unfold bind at 1; unfold try_except; unfold bind at 1.
  - unfold teams_repo.get_all_teams. rewrite (repo_call_healthy _ _ _ Hh).
    unfold router.to_team_response. rewrite map_id. reflexivity.
  - unfold teams_repo.get_active_teams. rewrite (repo_call_healthy _ _ _ Hh).
    unfold router.to_team_response. rewrite map_id. reflexivity.
Qed.

Lemma team_order_total (d : Database) :
  total_order (collation d) ->
  (forall a b, team_order d a b = true \/ team_order d b a = true) /\
  (forall a b c, team_order d a b = true -> team_order d b c = true ->
                 team_order d a c = true).
Proof.
  intros [Htot Htr]. unfold team_order. split.
  - intros a b. apply Htot.
  - intros a b c. apply Htr.
Qed.

(** X1.  An authenticated request to [/api/teams] against a healthy store
    whose collation is a total order is answered 200 with every team of the
    table, each once, ordered by name, after the single repository call
    [get_all_teams]. *)
Theorem X1_all_teams_every_team_by_name :
  forall (w : World) (r : Request) (secret : string),
    assoc "API_BEARER_TOKEN" (environ w) = Some secret ->
    authorization r = Some secret ->
    route r = ApiTeams ->
    healthy w ->
    total_order (collation (db w)) ->
    exists rows,
      response_of r w = mkResponse 200 [] (JArr (map Encode.of_team rows)) /\
      store_calls r w = [TeamsGetAll] /\
      Permutation rows (teams_table (db w)) /\
      StronglySorted (by_team_name (collation (db w))) rows.
Proof.
  intros w r secret Hs Ha Hr Hh Hord.
  destruct (teams_route_healthy r w secret Hs Ha Hh) as [E _]. specialize (E Hr).
  destruct (team_order_total _ Hord) as [Htot Htr].
  exists (Sql.order_by (team_order (db w)) (teams_table (db w))).
  unfold response_of, store_calls, api_app.app. rewrite E. simpl.
  repeat split.
  - apply skipn_length_app.
  - apply order_by_perm.
  - apply (order_by_strongly_sorted _ Htot Htr).
Qed.

Lemma X1_witness :
  exists rows,
    response_of (Sample.get ApiTeams (Some "s3cret")) Sample.world =
      mkResponse 200 [] (JArr (map Encode.of_team rows)) /\
    store_calls (Sample.get ApiTeams (Some "s3cret")) Sample.world = [TeamsGetAll].
Proof.
  destruct (X1_all_teams_every_team_by_name Sample.world
              (Sample.get ApiTeams (Some "s3cret")) "s3cret"
              eq_refl eq_refl eq_refl eq_refl string_leb_total_order)
    as (rows & Hresp & Hcalls & _).
  exists rows. split; assumption.
Defined.

Lemma filter_permuted {A : Type} (keep : A -> bool) (l l' : list A) :
  Permutation l l' -> Permutation (filter keep l) (filter keep l').
Proof.
  induction 1 as [| x l l' Hp IH | x y l | l l' l'' H1 IH1 H2 IH2]; simpl.
  - constructor.
  - destruct (keep x); [now constructor | exact IH].
  - destruct (keep x), (keep y); try reflexivity. apply perm_swap.
  - now transitivity (filter keep l').
Qed.

(** X2.  An authenticated request to [/api/teams/active] against a healthy
    store whose collation is a total order is answered 200, after the single
    repository call [get_active_teams], with exactly the teams of the table
    whose [teamIsActive] is set, each once, ordered by name: the teams that
    [/api/teams] lists, without the inactive ones. *)
Theorem X2_active_teams_exactly_the_active :
  forall (w : World) (r_all r_active : Request) (secret : string),
    assoc "API_BEARER_TOKEN" (environ w) = Some secret ->
    authorization r_all = Some secret ->
    authorization r_active = Some secret ->
    route r_all = ApiTeams ->
    route r_active = ApiTeamsActive ->
    healthy w ->
    total_order (collation (db w)) ->
    exists rows active_rows,
      response_of r_all w = mkResponse 200 [] (JArr (map Encode.of_team rows)) /\
      response_of r_active w =
        mkResponse 200 [] (JArr (map Encode.of_team active_rows)) /\
      store_calls r_active w = [TeamsGetActive] /\
      Permutation active_rows (filter teamIsActive (teams_table (db w))) /\
      Permutation active_rows (filter teamIsActive rows) /\
      StronglySorted (by_team_name (collation (db w))) active_rows /\
      Forall (fun t => teamIsActive t = true) active_rows.
Proof.
  intros w r_all r_active secret Hs Ha1 Ha2 Hr1 Hr2 Hh Hord.
  destruct (teams_route_healthy r_all w secret Hs Ha1 Hh) as [E1 _]. specialize (E1 Hr1).
  destruct (teams_route_healthy r_active w secret Hs Ha2 Hh) as [_ E2]. specialize (E2 Hr2).
  destruct (team_order_total _ Hord) as [Htot Htr].
  exists (Sql.order_by (team_order (db w)) (teams_table (db w))),
         (Sql.order_by (team_order (db w)) (filter teamIsActive (teams_table (db w)))).
  unfold response_of, store_calls, api_app.app. rewrite E1, E2. simpl.
  split; [reflexivity |]. split; [reflexivity |].
  split; [apply skipn_length_app |].
  assert (Hperm : Permutation
                    (Sql.order_by (team_order (db w))
                       (filter teamIsActive (teams_table (db w))))
                    (filter teamIsActive (teams_table (db w))))
    by apply order_by_perm.
  split; [exact Hperm |]. split; [| split].
  - rewrite Hperm. apply Permutation_sym. apply filter_permuted.
    apply order_by_perm.
  - apply (order_by_strongly_sorted _ Htot Htr).
  - apply Forall_forall. intros t Ht.
    apply (Permutation_in _ Hperm) in Ht. apply filter_In in Ht. tauto.
Qed.

Lemma X2_witness :
  exists rows active_rows,
    response_of (Sample.get ApiTeams (Some "s3cret")) Sample.world =
      mkResponse 200 [] (JArr (map Encode.of_team rows)) /\
    response_of (Sample.get ApiTeamsActive (Some "s3cret")) Sample.world =
      mkResponse 200 [] (JArr (map Encode.of_team active_rows)) /\
    Permutation active_rows (filter teamIsActive rows).
Proof.
  destruct (X2_active_teams_exactly_the_active Sample.world
              (Sample.get ApiTeams (Some "s3cret"))
              (Sample.get ApiTeamsActive (Some "s3cret")) "s3cret"
              eq_refl eq_refl eq_refl eq_refl eq_refl eq_refl string_leb_total_order)
    as (rows & active_rows & Hall & Hactive & _ & _ & Hsub & _).
  exists rows, active_rows. repeat split; assumption.
Defined.

(** ** One player *)

Lemma fetchone_filter {A : Type} (f : A -> bool) (l : list A) :
  match Sql.fetchone (filter f l) with
  | Some x => In x l /\ f x = true
  | None => forall x, In x l -> f x = false
  end.
Proof.
  induction l as [| y l IH]; simpl; [intros x [] |].
  destruct (f y) eqn:E; simpl.
  - auto.
  - destruct (Sql.fetchone (filter f l)) as [x |].
    + destruct IH. auto.
    + intros x [<- | Hx]; auto.
Qed.

Lemma player_route_healthy (r : Request) (w : World) (secret : string) (player_id : Z) :
  assoc "API_BEARER_TOKEN" (environ w) = Some secret ->
  authorization r = Some secret ->
  route r = ApiPlayer (IntSegment player_id) ->
  healthy w ->
  api_app.endpoint r w =
    (match players_repo.select_by_id player_id (db w) with
     | Some row => Returned (Encode.of_player (router.to_player_response row))
     | None => Raised (HTTPException 404
                         ("Player " +++ Text.of_Z player_id +++ " not found") [])
     end, logged w (PlayersGetById player_id)).
Proof.
  intros Hs Ha Hr Hh.
  assert (Hnh : route r <> Health) by (rewrite Hr; discriminate).
  rewrite (endpoint_authenticated _ _ _ Hnh Hs Ha), Hr.
  unfold api_app.run_route, api_app.with_int, router.get_player_by_id.
  unfold bind at 1. unfold try_except. unfold bind at 1.
  unfold players_repo.get_player_by_id. rewrite (repo_call_healthy _ _ _ Hh).
  destruct (players_repo.select_by_id player_id (db w)); reflexivity.
Qed.

(** X3.  For an authenticated request for player [player_id] against a
    healthy store, after the single repository call [get_player_by_id]: if
    no row of the players table has that id the answer is 404 with the
    detail "Player <id> not found"; otherwise it is 200 with the response
    model of a row of the table that has that id. *)
Theorem X3_player_by_id_found_or_404 :
  forall (w : World) (r : Request) (secret : string) (player_id : Z),
    assoc "API_BEARER_TOKEN" (environ w) = Some secret ->
    authorization r = Some secret ->
    route r = ApiPlayer (IntSegment player_id) ->
    healthy w ->
    store_calls r w = [PlayersGetById player_id] /\
    ((forall p, In p (players_table (db w)) -> row_playerId p <> player_id) ->
     response_of r w =
       mkResponse 404 []
         (JObj [("detail", JStr ("Player " +++ Text.of_Z player_id +++ " not found"))])) /\
    ((exists p, In p (players_table (db w)) /\ row_playerId p = player_id) ->
     exists row,
       In row (players_table (db w)) /\ row_playerId row = player_id /\
       playerId (router.to_player_response row) = player_id /\
       response_of r w =
         mkResponse 200 [] (Encode.of_player (router.to_player_response row))).
Proof.
  intros w r secret player_id Hs Ha Hr Hh.
  pose proof (player_route_healthy r w secret player_id Hs Ha Hr Hh) as E.
  pose proof (fetchone_filter (fun p => row_playerId p =? player_id)
                (players_table (db w))) as Hsel.
  fold (players_repo.select_by_id player_id (db w)) in Hsel.
  unfold response_of, store_calls, api_app.app. rewrite E. simpl.
  split; [apply skipn_length_app | split].
  - intros Hnone.
    destruct (players_repo.select_by_id player_id (db w)) as [row |]; [| reflexivity].
    destruct Hsel as [Hin Hid]. apply Z.eqb_eq in Hid. now destruct (Hnone row Hin).
  - intros (p & Hin & Hid).
    destruct (players_repo.select_by_id player_id (db w)) as [row |].
    + destruct Hsel as [Hrow Hrid]. apply Z.eqb_eq in Hrid.
      exists row. repeat split; auto.
    + specialize (Hsel p Hin). apply Z.eqb_neq in Hsel. contradiction.
Qed.

Lemma X3_witness :
  store_calls (Sample.get (ApiPlayer (IntSegment 77)) (Some "s3cret")) Sample.world =
    [PlayersGetById 77] /\
  response_of (Sample.get (ApiPlayer (IntSegment 77)) (Some "s3cret")) Sample.world =
    mkResponse 404 [] (JObj [("detail", JStr "Player 77 not found")]).
Proof.
  destruct (X3_player_by_id_found_or_404 Sample.world
              (Sample.get (ApiPlayer (IntSegment 77)) (Some "s3cret")) "s3cret" 77
              eq_refl eq_refl eq_refl eq_refl) as (Hcalls & Hnone & _).
  split; [exact Hcalls |].
  apply Hnone. intros p Hp.
  repeat (destruct Hp as [<- | Hp]; [discriminate |]). destruct Hp.
Defined.

(** ** The liveness route and malformed path parameters *)

(** X4.  [/health] is answered 200 with the fixed liveness payload for every
    request, whatever credential it carries or lacks, whether or not the
    secret is configured and whether or not the store is reachable; no
    repository function is called and the secret is not read: the world is
    left exactly as it was. *)
Theorem X4_health_needs_nothing :
  forall (w : World) (r : Request),
    route r = Health ->
    api_app.app r w =
      (mkResponse 200 []
         (JObj [("status", JStr "healthy"); ("service", JStr "NHL Companion API");
                ("version", JStr "1.0.0")]), w) /\
    store_calls r w = [].
Proof.
  intros w r Hr. unfold store_calls, api_app.app, api_app.endpoint. rewrite Hr.
  split; [reflexivity | apply skipn_length_self].
Qed.

Lemma X4_witness :
  api_app.app (Sample.get Health None)
    (mkWorld [] [] (RuntimeError "unused") Sample.database [true] 0 []) =
    (mkResponse 200 []
       (JObj [("status", JStr "healthy"); ("service", JStr "NHL Companion API");
              ("version", JStr "1.0.0")]),
     mkWorld [] [] (RuntimeError "unused") Sample.database [true] 0 []).
Proof.
  apply (X4_health_needs_nothing
           (mkWorld [] [] (RuntimeError "unused") Sample.database [true] 0 [])
           (Sample.get Health None) eq_refl).
Defined.

(** X5.  An authenticated request whose [team_id], [player_id] or [game_id]
    path segment is not an integer is answered 422 by the validation
    handler, with that path parameter listed, and the handler body does not
    run: no repository function is called. *)
Theorem X5_non_integer_path_unprocessable :
  forall (w : World) (r : Request) (secret raw name : string),
    assoc "API_BEARER_TOKEN" (environ w) = Some secret ->
    authorization r = Some secret ->
    (route r = ApiTeamPlayers (OtherSegment raw) /\ name = "team_id") \/
    (route r = ApiPlayer (OtherSegment raw) /\ name = "player_id") \/
    (route r = ApiGame (OtherSegment raw) /\ name = "game_id") ->
    response_of r w =
      mkResponse 422 []
        (JObj [("detail", JStr "Invalid request parameters");
               ("errors",
                JArr [JObj [("type", JStr "int_parsing");
                            ("loc", JArr [JStr "path"; JStr name]);
                            ("input", JStr raw)]])]) /\
    snd (api_app.app r w) = w /\
    store_calls r w = [].
Proof.
  intros w r secret raw name Hs Ha Hr.
  assert (Hnh : route r <> Health)
    by (destruct Hr as [[E _] | [[E _] | [E _]]]; rewrite E; discriminate).
  unfold response_of, store_calls, api_app.app.
  rewrite (endpoint_authenticated _ _ _ Hnh Hs Ha).
  destruct Hr as [[-> ->] | [[-> ->] | [-> ->]]]; simpl;
    (repeat split; apply skipn_length_self).
Qed.

Lemma X5_witness :
  status (response_of (Sample.get (ApiGame (OtherSegment "abc")) (Some "s3cret"))
            Sample.world) = 422 /\
  store_calls (Sample.get (ApiGame (OtherSegment "abc")) (Some "s3cret"))
    Sample.world = [].
Proof.
  destruct (X5_non_integer_path_unprocessable Sample.world
              (Sample.get (ApiGame (OtherSegment "abc")) (Some "s3cret"))
              "s3cret" "abc" "game_id" eq_refl eq_refl
              (or_intror (or_intror (conj eq_refl eq_refl))))
    as (Hresp & _ & Hcalls).
  split; [rewrite Hresp; reflexivity | exact Hcalls].
Defined.

(** ** When the store fails *)

Lemma repo_call_failing {A : Type} (c : RepoCall) (q : Database -> A) (w : World)
  (rest : list bool) :
  faults w = true :: rest ->
  (_ <- invoked c ;; run_query q) w =
    (Raised (DatabaseError "store unavailable"), set_faults (logged w c) rest).
Proof.
  intros H. unfold bind, invoked, run_query. simpl. rewrite H. reflexivity.
Qed.

Lemma repo_call_succeeding {A : Type} (c : RepoCall) (q : Database -> A) (w : World)
  (rest : list bool) :
  faults w = false :: rest ->
  (_ <- invoked c ;; run_query q) w =
    (Returned (q (db w)), set_faults (logged w c) rest).
Proof.
  intros H. unfold bind, invoked, run_query. simpl. rewrite H. reflexivity.
Qed.

(** X6.  On the team, player and game-detail routes, when the connection
    attempt of the first repository call fails, an authenticated request
    with well-typed parameters is answered 500 with the fixed detail of its
    handler, not with the text of the failure; that one repository call is
    the only one, and exactly one connection attempt is used up: nothing is
    retried. *)
Theorem X6_store_failure_is_generic_500 :
  forall (w : World) (r : Request) (secret : string) (rest : list bool),
    assoc "API_BEARER_TOKEN" (environ w) = Some secret ->
    authorization r = Some secret ->
    store_route (route r) = true ->
    faults w = true :: rest ->
    response_of r w =
      mkResponse 500 [] (JObj [("detail", JStr (failure_detail (route r)))]) /\
    store_calls r w = first_call (route r) /\
    faults (snd (api_app.app r w)) = rest.
Proof.
  intros w r secret rest Hs Ha Hroute Hf.
  assert (Hnh : route r <> Health) by (intros E; rewrite E in Hroute; discriminate).
  assert (E : api_app.endpoint r w =
              (Raised (HTTPException 500 (failure_detail (route r)) []),
               set_faults (set_calls w (calls w ++ first_call (route r))) rest)).
  { rewrite (endpoint_authenticated _ _ _ Hnh Hs Ha).
    destruct (route r) as [| | | date tz | [n | raw] | [n | raw] | [n | raw]];
      try discriminate Hroute;
      unfold api_app.run_route, api_app.with_int,
        router.get_all_teams, router.get_active_teams, router.get_players_by_team,
        router.get_player_by_id, router.get_game_detail;
      unfold bind at 1; unfold try_except; unfold bind at 1;
      unfold teams_repo.get_all_teams, teams_repo.get_active_teams,
        players_repo.get_players_by_team, players_repo.get_player_by_id,
        games_repo.get_game_by_id;
      rewrite (repo_call_failing _ _ _ _ Hf); reflexivity. }
  unfold response_of, store_calls, api_app.app. rewrite E. simpl.
  repeat split. apply skipn_length_app.
Qed.

Lemma X6_witness :
  response_of (Sample.get (ApiPlayer (IntSegment 2)) (Some "s3cret"))
    (set_faults Sample.world [true]) =
    mkResponse 500 [] (JObj [("detail", JStr "Failed to fetch player 2")]) /\
  store_calls (Sample.get (ApiPlayer (IntSegment 2)) (Some "s3cret"))
    (set_faults Sample.world [true]) = [PlayersGetById 2].
Proof.
  destruct (X6_store_failure_is_generic_500 (set_faults Sample.world [true])
              (Sample.get (ApiPlayer (IntSegment 2)) (Some "s3cret")) "s3cret" []
              eq_refl eq_refl eq_refl eq_refl) as (Hresp & Hcalls & _).
  split; [exact Hresp | exact Hcalls].
Defined.

(** X7.  On the game-detail route, when the game is found but the connection
    attempt of the plays query fails, an authenticated request is answered
    500 with the handler's fixed detail: the game is not returned without
    its plays.  Both repository functions have been called, in order, and
    two connection attempts are used up. *)
Theorem X7_game_detail_all_or_nothing :
  forall (w : World) (r : Request) (secret : string) (game_id : Z)
         (g : GameRow) (rest : list bool),
    assoc "API_BEARER_TOKEN" (environ w) = Some secret ->
    authorization r = Some secret ->
    route r = ApiGame (IntSegment game_id) ->
    games_repo.select_by_id game_id (db w) = Some g ->
    faults w = false :: true :: rest ->
    response_of r w =
      mkResponse 500 []
        (JObj [("detail",
                JStr ("Failed to fetch game detail for game " +++ Text.of_Z game_id))]) /\
    store_calls r w = [GamesGetById game_id; PlaysGetByGame game_id] /\
    faults (snd (api_app.app r w)) = rest.
Proof.
  intros w r secret game_id g rest Hs Ha Hr Hg Hf.
  assert (Hnh : route r <> Health) by (rewrite Hr; discriminate).
  assert (E : api_app.endpoint r w =
              (Raised (HTTPException 500
                         ("Failed to fetch game detail for game " +++ Text.of_Z game_id) []),
               set_faults (logged (logged w (GamesGetById game_id))
                             (PlaysGetByGame game_id)) rest)).
  { rewrite (endpoint_authenticated _ _ _ Hnh Hs Ha), Hr.
    unfold api_app.run_route, api_app.with_int, router.get_game_detail.
    unfold bind at 1. unfold try_except. unfold bind at 1.
    unfold games_repo.get_game_by_id. rewrite (repo_call_succeeding _ _ _ _ Hf), Hg.
    unfold bind at 1. unfold plays_repo.get_plays_by_game.
    rewrite (repo_call_failing _ _ (set_faults (logged w (GamesGetById game_id))
                                      (true :: rest)) rest eq_refl).
    reflexivity. }
  unfold response_of, store_calls, api_app.app. rewrite E. simpl.
  repeat split. rewrite <- app_assoc. apply skipn_length_app.
Qed.

Lemma X7_witness :
  response_of (Sample.get (ApiGame (IntSegment 2023020701)) (Some "s3cret"))
    (set_faults Sample.world [false; true]) =
    mkResponse 500 []
      (JObj [("detail", JStr "Failed to fetch game detail for game 2023020701")]) /\
  store_calls (Sample.get (ApiGame (IntSegment 2023020701)) (Some "s3cret"))
    (set_faults Sample.world [false; true]) =
    [GamesGetById 2023020701; PlaysGetByGame 2023020701].
Proof.
  destruct (X7_game_detail_all_or_nothing (set_faults Sample.world [false; true])
              (Sample.get (ApiGame (IntSegment 2023020701)) (Some "s3cret")) "s3cret"
              2023020701 Sample.evening_game [] eq_refl eq_refl eq_refl eq_refl eq_refl)
    as (Hresp & Hcalls & _).
  split; [exact Hresp | exact Hcalls].
Defined.

(** ** A date that is given *)

(** X8.  For an authenticated request to [/api/games] with a [date] of the
    shape [YYYY-MM-DD] and a zone [pytz] knows, the handler hands exactly
    that date string and that zone name to the games repository, in one
    call, whatever the clock reads and whether or not a calendar date of
    that name exists. *)
Theorem X8_given_date_passes_through :
  forall (w : World) (r : Request) (secret date : string)
         (timezone : option string) (z : tzinfo),
    assoc "API_BEARER_TOKEN" (environ w) = Some secret ->
    authorization r = Some secret ->
    route r = ApiGames (Some date) timezone ->
    fullmatch date_pattern date = true ->
    assoc (effective_timezone timezone) (zoneinfo w) = Some z ->
    forall t : Z,
      store_calls r (set_clock w t) =
        [GamesGetByDate date (effective_timezone timezone)].
Proof.
  intros w r secret date timezone z Hs Ha Hr Hshape Hz t.
  assert (Hnh : route r <> Health) by (rewrite Hr; discriminate).
  unfold store_calls, api_app.app.
  rewrite (endpoint_authenticated r (set_clock w t) secret Hnh Hs Ha), Hr.
  unfold api_app.run_route, api_app.validate_date. rewrite Hshape.
  fold (effective_timezone timezone). unfold bind at 1.
  rewrite get_games_by_date_settled.
  change (zoneinfo (set_clock w t)) with (zoneinfo w). rewrite Hz. cbv zeta.
  unfold try_except, bind at 1.
  destruct (games_repo_call_trace date (effective_timezone timezone) (set_clock w t))
    as (Hc & _).
  destruct (games_repo.get_games_by_date date (effective_timezone timezone)
              (set_clock w t)) as [[rows | e] w1]; simpl in Hc |- *.
  - rewrite Hc. apply skipn_length_app.
  - destruct e; simpl; rewrite Hc; apply skipn_length_app.
Qed.

Lemma X8_witness :
  store_calls (Sample.get (ApiGames (Some "2024-02-30") (Some "UTC")) (Some "s3cret"))
    (set_clock Sample.world 0) = [GamesGetByDate "2024-02-30" "UTC"].
Proof.
  apply (X8_given_date_passes_through Sample.world
           (Sample.get (ApiGames (Some "2024-02-30") (Some "UTC")) (Some "s3cret"))
           "s3cret" "2024-02-30" (Some "UTC") Sample.utc
           eq_refl eq_refl eq_refl eq_refl eq_refl 0).
Defined.

(** ** The players of a team, whatever the store does *)

Lemma response_of_respond (r : Request) (w : World) :
  response_of r w = api_app.respond (fst (api_app.endpoint r w)).
Proof.
  unfold response_of, api_app.app. destruct (api_app.endpoint r w); reflexivity.
Qed.

(** X11.  For an authenticated request for the players of team [team_id],
    whatever the state of the store: the answer is either 200 with the
    complete ordered list or the handler's 500, never a partial list; every
    listed player carries that team id, so a player without a team is
    listed under no team. *)
Theorem X11_team_players_complete_or_500 :
  forall (w : World) (r : Request) (secret : string) (team_id : Z),
    assoc "API_BEARER_TOKEN" (environ w) = Some secret ->
    authorization r = Some secret ->
    route r = ApiTeamPlayers (IntSegment team_id) ->
    let rows := players_repo.select_by_team team_id (db w) in
    (response_of r w =
       mkResponse 200 [] (JArr (map Encode.of_player (map router.to_player_response rows)))
     \/
     response_of r w =
       mkResponse 500 []
         (JObj [("detail",
                 JStr ("Failed to fetch players for team " +++ Text.of_Z team_id))])) /\
    Forall (fun p => playerTeamId p = Some team_id) (map router.to_player_response rows).
Proof.
  intros w r secret team_id Hs Ha Hr rows.
  assert (Hnh : route r <> Health) by (rewrite Hr; discriminate).
  split.
  - assert (Ho : fst (api_app.endpoint r w) =
                 match faults w with
                 | true :: _ =>
                     Raised (HTTPException 500
                               ("Failed to fetch players for team " +++
                                Text.of_Z team_id) [])
                 | _ => Returned (JArr (map Encode.of_player
                                          (map router.to_player_response rows)))
                 end).
    { rewrite (endpoint_authenticated _ _ _ Hnh Hs Ha), Hr.
      unfold api_app.run_route, api_app.with_int. unfold bind at 1.
      pose proof (players_by_team_handler team_id secret w) as H.
      destruct (router.get_players_by_team team_id secret w) as [o w1].
      cbn [fst] in H. subst o.
      destruct (faults w) as [| [|] rest]; reflexivity. }
    rewrite response_of_respond, Ho.
    destruct (faults w) as [| [|] rest]; [left | right | left]; reflexivity.
  - rewrite Forall_map. apply Forall_forall. intros p Hp.
    apply (Permutation_in _ (select_by_team_complete team_id (db w))) in Hp.
    apply filter_In in Hp. destruct Hp as [_ Hp]. simpl.
    destruct (row_playerTeamId p) as [t |]; simpl in Hp; [| discriminate].
    apply Z.eqb_eq in Hp. now subst.
Qed.

Lemma X11_witness :
  response_of (Sample.get (ApiTeamPlayers (IntSegment 6)) (Some "s3cret"))
    (set_faults Sample.world [true]) =
    mkResponse 500 [] (JObj [("detail", JStr "Failed to fetch players for team 6")]) /\
  Forall (fun p => playerTeamId p = Some 6)
    (map router.to_player_response (players_repo.select_by_team 6 Sample.database)).
Proof.
  destruct (X11_team_players_complete_or_500 (set_faults Sample.world [true])
              (Sample.get (ApiTeamPlayers (IntSegment 6)) (Some "s3cret")) "s3cret" 6
              eq_refl eq_refl eq_refl) as [[Hok | Hfail] Hteam].
  - discriminate Hok.
  - split; [exact Hfail | exact Hteam].
Defined.

(** ** The statuses of a route *)

Lemma games_repo_outcome (date timezone : string) (w : World) :
  match fst (games_repo.get_games_by_date date timezone w) with
  | Raised (HTTPException _ _ _) => False
  | _ => True
  end.
Proof.
  unfold games_repo.get_games_by_date, bind, invoked, get_world. simpl.
  destruct (assoc timezone (zoneinfo w)); [| exact I].
  destruct (games_repo.parse_iso_date date); [| exact I].
  unfold run_query. simpl. destruct (faults w) as [| [|] rest]; exact I.
Qed.

Lemma run_route_ends (rt : Route) (token : string) (w : World) :
  ends_as_route rt (fst (api_app.run_route rt token w)).
Proof.
  destruct rt as [| | | date tz | [n | raw] | [n | raw] | [n | raw]];
    try (simpl; tauto).
  - unfold api_app.run_route, router.get_all_teams, teams_repo.get_all_teams,
      try_except, bind, invoked, run_query. simpl.
    destruct (faults w) as [| [|] rest]; simpl; tauto.
  - unfold api_app.run_route, router.get_active_teams, teams_repo.get_active_teams,
      try_except, bind, invoked, run_query. simpl.
    destruct (faults w) as [| [|] rest]; simpl; tauto.
  - unfold api_app.run_route. destruct (api_app.validate_date date); [| simpl; tauto].
    unfold bind at 1. rewrite get_games_by_date_settled.
    destruct (assoc _ (zoneinfo w)) as [z |]; [| simpl; tauto].
    cbv zeta. unfold try_except, bind at 1.
    match goal with
    | |- context [games_repo.get_games_by_date ?d ?t w] =>
        pose proof (games_repo_outcome d t w) as H;
        destruct (games_repo.get_games_by_date d t w) as [[rows | e] w1]
    end.
    + simpl. tauto.
    + destruct e; simpl in H |- *; tauto.
  - unfold api_app.run_route, api_app.with_int. unfold bind at 1.
    pose proof (players_by_team_handler n token w) as H.
    destruct (router.get_players_by_team n token w) as [o w1]. cbn [fst] in H. subst o.
    destruct (faults w) as [| [|] rest]; simpl; tauto.
  - unfold api_app.run_route, api_app.with_int. unfold bind at 1.
    pose proof (player_by_id_handler n token w) as H.
    destruct (router.get_player_by_id n token w) as [o w1]. cbn [fst] in H. subst o.
    destruct (faults w) as [| [|] rest]; simpl; try tauto;
      destruct (option_map _ _); simpl; tauto.
  - unfold api_app.run_route, api_app.with_int, router.get_game_detail,
      games_repo.get_game_by_id, plays_repo.get_plays_by_game,
      try_except, bind, invoked, run_query. simpl.
    destruct (faults w) as [| [|] rest] eqn:Hf; simpl; try tauto;
      destruct (games_repo.select_by_id n (db w)); simpl; rewrite ?Hf; simpl; try tauto.
    destruct rest as [| [|] rest]; simpl; tauto.
Qed.

(** X9.  A request that is past the gate (secret configured and presented)
    is answered with a status its route allows: 200 or 500 on the team
    listings; 200, 400, 422 or 500 on [/api/games]; 200, 422 or 500 on the
    players of a team; 200, 404, 422 or 500 on a player or a game.  Whatever
    is raised is raised as an [HTTPException] without headers of its own or
    as a validation error: the handlers let no other exception through to
    the general exception handler. *)
Theorem X9_authenticated_statuses :
  forall (w : World) (r : Request) (secret : string),
    assoc "API_BEARER_TOKEN" (environ w) = Some secret ->
    authorization r = Some secret ->
    In (status (response_of r w)) (route_statuses (route r)) /\
    ends_as_route (route r) (fst (api_app.endpoint r w)).
Proof.
  intros w r secret Hs Ha.
  assert (E : ends_as_route (route r) (fst (api_app.endpoint r w))).
  { destruct (route r) eqn:Hr.
    1: unfold api_app.endpoint; rewrite Hr; exact I.
    all: assert (Hnh : route r <> Health) by (rewrite Hr; discriminate).
    all: rewrite (endpoint_authenticated _ _ _ Hnh Hs Ha), Hr.
    all: apply run_route_ends. }
  rewrite response_of_respond.
  destruct (fst (api_app.endpoint r w)) as [content | e].
  - split; auto. simpl. destruct (route r); simpl; tauto.
  - destruct e; simpl in E |- *; try contradiction.
    + destruct E as [E ->]. auto.
    + auto.
Qed.

Lemma X9_witness :
  In (status (response_of (Sample.get (ApiPlayer (IntSegment 77)) (Some "s3cret"))
                Sample.world)) [200; 404; 422; 500].
Proof.
  destruct (X9_authenticated_statuses Sample.world
              (Sample.get (ApiPlayer (IntSegment 77)) (Some "s3cret")) "s3cret"
              eq_refl eq_refl) as (Hstatus & _).
  exact Hstatus.
Defined.

(** ** What a request leaves behind *)

Section Frame.

Lemma frames_still {A : Type} (m : M A) :
  (forall w, snd (m w) = w) -> Frames 0 m.
Proof.
  intros H w. rewrite H. repeat split.
  exists [], 0%nat. rewrite app_nil_r. repeat split; auto.
Qed.

Lemma frames_ret {A : Type} (a : A) : Frames 0 (ret a).
Proof. now apply frames_still. Qed.

Lemma frames_raise {A : Type} (e : Exn) : Frames 0 (@raise A e).
Proof. now apply frames_still. Qed.

Lemma frames_weaken {A : Type} (n n' : nat) (m : M A) :
  (n <= n')%nat -> Frames n m -> Frames n' m.
Proof.
  intros Hn H w. destruct (H w) as (He & Hz & Hb & Hd & Hc & cs & k & Hcs & Hlen & Hk & Hf).
  repeat split; auto. exists cs, k. repeat split; auto. lia.
Qed.

Lemma frames_then {A B : Type} (n1 n2 : nat) (m : M A) (w w1 : World)
  (o : Outcome A) (k : M B) :
  Frames n1 m -> m w = (o, w1) -> Frames n2 k ->
  environ (snd (k w1)) = environ w /\
  zoneinfo (snd (k w1)) = zoneinfo w /\
  bearer_auto_error (snd (k w1)) = bearer_auto_error w /\
  db (snd (k w1)) = db w /\
  clock (snd (k w1)) = clock w /\
  exists (cs : list RepoCall) (j : nat),
    calls (snd (k w1)) = calls w ++ cs /\
    (List.length cs <= n1 + n2)%nat /\ (j <= List.length cs)%nat /\
    faults (snd (k w1)) = skipn j (faults w).
Proof.
  intros Hm E Hk.
  destruct (Hm w) as (He & Hz & Hb & Hd & Hc & cs1 & k1 & Hcs1 & Hl1 & Hk1 & Hf1).
  rewrite E in *. simpl in *.
  destruct (Hk w1) as (He2 & Hz2 & Hb2 & Hd2 & Hc2 & cs2 & k2 & Hcs2 & Hl2 & Hk2 & Hf2).
  repeat split; try congruence.
  exists (cs1 ++ cs2), (k2 + k1)%nat. rewrite length_app. repeat split; try lia.
  - rewrite Hcs2, Hcs1. now rewrite app_assoc.
  - rewrite Hf2, Hf1. apply skipn_skipn.
Qed.

Lemma frames_bind {A B : Type} (n1 n2 : nat) (m : M A) (k : A -> M B) :
  Frames n1 m -> (forall a, Frames n2 (k a)) -> Frames (n1 + n2) (bind m k).
Proof.
  intros Hm Hk w. unfold bind. destruct (m w) as [[a | e] w1] eqn:E.
  - apply (frames_then n1 n2 m w w1 (Returned a) (k a) Hm E (Hk a)).
  - apply (frames_then n1 n2 m w w1 (Raised e) (raise e) Hm E).
    apply (frames_weaken 0); [lia | apply frames_raise].
Qed.

Lemma frames_try_except {A : Type} (n1 n2 : nat) (m : M A) (h : Exn -> M A) :
  Frames n1 m -> (forall e, Frames n2 (h e)) -> Frames (n1 + n2) (try_except m h).
Proof.
  intros Hm Hh w. unfold try_except. destruct (m w) as [[a | e] w1] eqn:E.
  - apply (frames_then n1 n2 m w w1 (Returned a) (ret a) Hm E).
    apply (frames_weaken 0); [lia | apply frames_ret].
  - apply (frames_then n1 n2 m w w1 (Raised e) (h e) Hm E (Hh e)).
Qed.

Lemma frames_repo_call {A : Type} (c : RepoCall) (q : Database -> A) :
  Frames 1 (_ <- invoked c ;; run_query q).
Proof.
  intros w. unfold bind, invoked, run_query. simpl.
  destruct (faults w) as [| [|] rest] eqn:Hf; simpl; repeat split;
    solve [ exists [c], 0%nat; simpl; rewrite ?Hf; repeat split; auto; lia
          | exists [c], 1%nat; simpl; rewrite ?Hf; repeat split; auto; lia ].
Qed.

Lemma frames_games_repo (date timezone : string) :
  Frames 1 (games_repo.get_games_by_date date timezone).
Proof.
  intros w. unfold games_repo.get_games_by_date, bind, invoked, get_world. simpl.
  destruct (assoc timezone (zoneinfo w)) as [z |];
    [destruct (games_repo.parse_iso_date date) as [ymd |] |].
  2, 3: simpl; repeat split;
        exists [GamesGetByDate date timezone], 0%nat; simpl; repeat split; auto; lia.
  unfold run_query. simpl.
  destruct (faults w) as [| [|] rest] eqn:Hf; simpl; repeat split;
    solve [ exists [GamesGetByDate date timezone], 0%nat; simpl; rewrite ?Hf;
            repeat split; auto; lia
          | exists [GamesGetByDate date timezone], 1%nat; simpl; rewrite ?Hf;
            repeat split; auto; lia ].
Qed.

Lemma frames_reraise_or {A : Type} (detail : string) (e : Exn) :
  Frames 0 (match e with
            | HTTPException _ _ _ => raise e
            | _ => @router.internal_error A detail
            end).
Proof. destruct e; apply frames_raise. Qed.

Lemma frames_run_route (rt : Route) (token : string) :
  Frames (call_budget rt) (api_app.run_route rt token).
Proof.
  destruct rt as [| | | date tz | [n | raw] | [n | raw] | [n | raw]];
    cbn [api_app.run_route api_app.with_int call_budget];
    try apply frames_ret;
    try (apply (frames_weaken 0); [lia | apply frames_raise]).
  - apply (frames_bind 1 0); [| intros; apply frames_ret].
    apply (frames_try_except 1 0); [| intros; apply frames_raise].
    apply (frames_bind 1 0); [apply frames_repo_call | intros; apply frames_ret].
  - apply (frames_bind 1 0); [| intros; apply frames_ret].
    apply (frames_try_except 1 0); [| intros; apply frames_raise].
    apply (frames_bind 1 0); [apply frames_repo_call | intros; apply frames_ret].
  - destruct (api_app.validate_date date);
      [| apply (frames_weaken 0); [lia | apply frames_raise]].
    apply (frames_bind 1 0); [| intros; apply frames_ret].
    intros w. rewrite get_games_by_date_settled.
    destruct (assoc _ (zoneinfo w)) as [z |].
    + cbv zeta.
      apply (frames_try_except 1 0); [| intros; apply frames_reraise_or].
      apply (frames_bind 1 0); [apply frames_games_repo | intros; apply frames_ret].
    + refine (frames_weaken 0 1 (@raise (list GameResponse) (HTTPException 400 _ []))
                _ (frames_raise _) w). lia.
  - apply (frames_bind 1 0); [| intros; apply frames_ret].
    apply (frames_try_except 1 0); [| intros; apply frames_raise].
    apply (frames_bind 1 0); [apply frames_repo_call |].
    intros [| x l]; apply frames_ret.
  - apply (frames_bind 1 0); [| intros; apply frames_ret].
    apply (frames_try_except 1 0); [| intros; apply frames_reraise_or].
    apply (frames_bind 1 0); [apply frames_repo_call |].
    intros [row |]; [apply frames_ret | apply frames_raise].
  - apply (frames_bind 2 0); [| intros; apply frames_ret].
    apply (frames_try_except 2 0); [| intros; apply frames_reraise_or].
    apply (frames_bind 1 1); [apply frames_repo_call |].
    intros [g |]; [| apply (frames_weaken 0); [lia | apply frames_raise]].
    apply (frames_bind 1 0); [apply frames_repo_call | intros; apply frames_ret].
Qed.

Lemma frames_endpoint (r : Request) :
  Frames (call_budget (route r)) (api_app.endpoint r).
Proof.
  destruct (route r) eqn:Hr.
  1: unfold api_app.endpoint; rewrite Hr; apply frames_ret.
  all: assert (Hnh : route r <> Health) by (rewrite Hr; discriminate).
  all: intros w; rewrite (endpoint_decided _ _ Hnh).
  all: destruct (authorization r) as [c |];
         [| refine (frames_weaken 0 _ (@raise json (bearer_auto_error w))
                      _ (frames_raise _) w); simpl; lia].
  all: destruct (assoc "API_BEARER_TOKEN" (environ w)) as [s |];
         [| refine (frames_weaken 0 _ (@raise json (RuntimeError _))
                      _ (frames_raise _) w); simpl; lia].
  all: destruct (String.eqb c s);
         [| refine (frames_weaken 0 _ (@raise json (HTTPException 401 _ _))
                      _ (frames_raise _) w); simpl; lia].
  all: rewrite Hr; apply (frames_run_route _ c w).
Qed.

End Frame.

(** X10.  Serving a request, on any route and however it ends, changes
    nothing but the call trace and the schedule of connection attempts: the
    environment, the zones, the tables and the clock are as before.  The
    trace grows by the request's repository calls, at most two on the
    game-detail route, at most one on any other route of the router and
    none on [/health]; and no more connection attempts are used up than
    repository calls were made. *)
Theorem X10_request_footprint :
  forall (r : Request) (w : World),
    environ (snd (api_app.app r w)) = environ w /\
    zoneinfo (snd (api_app.app r w)) = zoneinfo w /\
    db (snd (api_app.app r w)) = db w /\
    clock (snd (api_app.app r w)) = clock w /\
    calls (snd (api_app.app r w)) = calls w ++ store_calls r w /\
    (List.length (store_calls r w) <= call_budget (route r))%nat /\
    exists k : nat,
      (k <= List.length (store_calls r w))%nat /\
      faults (snd (api_app.app r w)) = skipn k (faults w).
Proof.
  intros r w.
  destruct (frames_endpoint r w)
    as (He & Hz & Hb & Hd & Hc & cs & k & Hcs & Hlen & Hk & Hf).
  unfold store_calls, api_app.app.
  destruct (api_app.endpoint r w) as [o w1]. simpl in *.
  rewrite Hcs, skipn_length_app.
  repeat split; auto. exists k. split; assumption.
Qed.

(** ** The games route when the store fails *)

(** X12.  For an authenticated request to [/api/games] with a known zone
    and a date that is absent or well shaped, when the connection attempt of
    the games repository fails the answer is 500 with the detail "Failed to
    fetch games for date <date>", where <date> is the date the handler
    settled on: the one given, or today's date in the zone when none was
    given.  The text of the failure is not part of the answer. *)
Theorem X12_games_failure_names_settled_date :
  forall (w : World) (r : Request) (secret : string)
         (date timezone : option string) (z : tzinfo) (rest : list bool),
    assoc "API_BEARER_TOKEN" (environ w) = Some secret ->
    authorization r = Some secret ->
    route r = ApiGames date timezone ->
    api_app.validate_date date = [] ->
    assoc (effective_timezone timezone) (zoneinfo w) = Some z ->
    faults w = true :: rest ->
    response_of r w =
      mkResponse 500 []
        (JObj [("detail",
                JStr ("Failed to fetch games for date " +++
                      match date with
                      | Some d => d
                      | None => Calendar.format_date (local_date z (clock w))
                      end))]).
Proof.
  intros w r secret date timezone z rest Hs Ha Hr Hv Hz Hf.
  assert (Hnh : route r <> Health) by (rewrite Hr; discriminate).
  rewrite response_of_respond.
  rewrite (endpoint_authenticated _ _ _ Hnh Hs Ha), Hr.
  unfold api_app.run_route. rewrite Hv. fold (effective_timezone timezone).
  unfold bind at 1. rewrite get_games_by_date_settled, Hz. cbv zeta.
  set (date' := match date with
                | Some d => d
                | None => Calendar.format_date (local_date z (clock w))
                end).
  unfold try_except, bind at 1.
  unfold games_repo.get_games_by_date, bind, invoked, get_world. simpl.
  rewrite Hz.
  destruct (games_repo.parse_iso_date date') as [ymd |]; [| reflexivity].
  unfold run_query. simpl. rewrite Hf. reflexivity.
Qed.

Lemma X12_witness :
  response_of (Sample.get (ApiGames None (Some "Pacific/Auckland")) (Some "s3cret"))
    (set_faults Sample.world [true]) =
    mkResponse 500 []
      (JObj [("detail", JStr "Failed to fetch games for date 2024-01-16")]).
Proof.
  apply (X12_games_failure_names_settled_date (set_faults Sample.world [true])
           (Sample.get (ApiGames None (Some "Pacific/Auckland")) (Some "s3cret"))
           "s3cret" None (Some "Pacific/Auckland") Sample.auckland []
           eq_refl eq_refl eq_refl eq_refl eq_refl eq_refl).
Defined.
